(** * Custom Vision lab scripts: the training watcher, the prediction
      filters and the tagged-image upload.

    The development follows the Python sources under [Labfiles/]:
    - [image-classification/python/train-classifier/train-classifier.py]
      ([Train_Model] and the [try]/[except] of [main]),
    - [image-classification/python/test-classifier/test-classifier.py],
    - [object-detection/python/test-detector/test-detector.py],
    - [object-detection/python/train-detector/add-tagged-images.py].

    Every call on the Azure client, every [print] and every [time.sleep]
    is recorded as an [event]; the remote service is an environment that
    answers the calls. *)

From Stdlib Require Import String Ascii List ZArith Lia Bool Arith Floats.
Import ListNotations.
Open Scope string_scope.
Open Scope list_scope.

(** ** Shared vocabulary *)

(** Python exceptions the scripts can meet. [ClientError] stands for
    whatever the Azure SDK raises when a request cannot be completed. *)
Inductive exn :=
| StopIteration
| FileNotFoundError (path : string)
| ClientError (msg : string).

(** [str(ex)], as printed by the handlers of [main]. *)
Definition str (ex : exn) : string :=
  match ex with
  | StopIteration => ""
  | FileNotFoundError path =>
      ("[Errno 2] No such file or directory: '" ++ path ++ "'")%string
  | ClientError msg => msg
  end.

(** [print(a, b, ...)] writes its arguments separated by one space. *)
Definition print_args (args : list string) : string := String.concat " " args.

(** [os.path.join(a, b)] on a POSIX system: an absolute [b] replaces [a];
    otherwise the two are joined by one slash unless [a] is empty or ends
    with one already. *)
Fixpoint ends_with_slash (a : string) : bool :=
  match a with
  | EmptyString => false
  | String c EmptyString => Ascii.eqb c "/"
  | String _ a' => ends_with_slash a'
  end.

Definition path_join (a b : string) : string :=
  match b with
  | String "/" _ => b
  | _ =>
      match a with
      | EmptyString => b
      | _ => if ends_with_slash a then (a ++ b)%string else (a ++ "/" ++ b)%string
      end
  end.

(** How a call of one of the functions ends. [Pending] is the answer of a
    bounded run that used up its budget of loop iterations: the Python
    code is still inside its [while]. *)
Inductive outcome :=
| Returned
| Raised (ex : exn)
| Pending.

Module TrainClassifier.

(** The object [train_project] and [get_iteration] return; the script
    reads its [id] and its [status]. *)
Record Iteration := { id : string; status : string }.

(** What the service answers to one request. *)
Inductive reply :=
| Reply (it : Iteration)
| Raises (ex : exn).

(** Observable actions of the script, in program order: the methods it
    calls on [training_client], [print] and [time.sleep]. *)
Inductive event :=
| get_tags (project_id : string)
| create_images_from_data (project_id : string) (image_data : list Byte.byte)
    (tag_ids : list string)
| train_project (project_id : string)
| get_iteration (project_id iteration_id : string)
| print (line : string)
| sleep (secs : Z).

(** The requests that change something on the service: uploading an image
    and starting a training iteration. [get_tags] and [get_iteration] only
    read. *)
Definition mutates (e : event) : bool :=
  match e with
  | create_images_from_data _ _ _ | train_project _ => true
  | _ => false
  end.

(** The requests made on [training_client]. *)
Definition is_request (e : event) : bool :=
  match e with
  | print _ | sleep _ => false
  | _ => true
  end.

(** The tail of the stream of answers, after the first request. *)
Definition later (service : nat -> reply) : nat -> reply :=
  fun n => service (S n).

Section Watcher.

(** [custom_vision_project.id], a module-level global of the script. *)
Variable project_id : string.

(** Lines 146-155:
<<
    while (iteration.status != "Completed"):
        iteration = training_client.get_iteration(custom_vision_project.id, iteration.id)
        print(iteration.status, '...')
        time.sleep(5)
>>
    [service n] is the answer to the [n]-th [get_iteration] request still
    to come; [fuel] bounds the number of loop iterations of this run. *)
Fixpoint while_loop (fuel : nat) (service : nat -> reply) (iteration : Iteration)
  : outcome * list event :=
  if negb (status iteration =? "Completed") then
    match fuel with
    | O => (Pending, [])
    | S fuel' =>
        match service O with
        | Raises ex => (Raised ex, [get_iteration project_id (id iteration)])
        | Reply iteration' =>
            let (o, tr) := while_loop fuel' (later service) iteration' in
            (o, get_iteration project_id (id iteration)
                  :: print (print_args [status iteration'; "..."])
                  :: sleep 5
                  :: tr)
        end
    end
  else (Returned, []).

(** Lines 146-158: the loop and the closing [print("Model trained!")]. *)
Definition watch (fuel : nat) (service : nat -> reply) (iteration : Iteration)
  : outcome * list event :=
  let (o, tr) := while_loop fuel service iteration in
  match o with
  | Returned => (Returned, tr ++ [print "Model trained!"])
  | _ => (o, tr)
  end.

(** [Train_Model], lines 138-158. [submit] is the answer of the service to
    [train_project]. *)
Definition Train_Model (fuel : nat) (submit : reply) (service : nat -> reply)
  : outcome * list event :=
  match submit with
  | Raises ex => (Raised ex, [print "Training ..."; train_project project_id])
  | Reply iteration =>
      let (o, tr) := watch fuel service iteration in
      (o, print "Training ..." :: train_project project_id :: tr)
  end.

(** The [try] ... [except Exception as ex: print(ex)] of [main], lines
    36-71, around the call of [Train_Model]. *)
Definition main_try (fuel : nat) (submit : reply) (service : nat -> reply)
  : outcome * list event :=
  let (o, tr) := Train_Model fuel submit service in
  match o with
  | Raised ex => (Returned, tr ++ [print (str ex)])
  | _ => (o, tr)
  end.

End Watcher.

(** *** Reading a trace *)

(** The requests sent to the service. *)
Definition is_poll (e : event) : bool :=
  match e with get_iteration _ _ => true | _ => false end.

Definition is_print (e : event) : bool :=
  match e with print _ => true | _ => false end.

Definition is_sleep (e : event) : bool :=
  match e with sleep _ => true | _ => false end.

(** Number of [get_iteration] calls made. *)
Definition polls (tr : list event) : nat := length (filter is_poll tr).

(** What reached the console. *)
Fixpoint printed (tr : list event) : list string :=
  match tr with
  | [] => []
  | print line :: tr' => line :: printed tr'
  | _ :: tr' => printed tr'
  end.

(** The durations handed to [time.sleep]. *)
Fixpoint sleeps (tr : list event) : list Z :=
  match tr with
  | [] => []
  | sleep secs :: tr' => secs :: sleeps tr'
  | _ :: tr' => sleeps tr'
  end.

(** The line the loop prints for a status. *)
Definition status_line (s : string) : string := print_args [s; "..."].

Definition terminal (s : string) : bool := s =? "Completed".

(** A service that gives the answers of [l] in turn and then goes on with
    [rest]. *)
Definition script (l : list reply) (rest : nat -> reply) : nat -> reply :=
  fun n => match nth_error l n with
           | Some r => r
           | None => rest (n - length l)
           end.

(** A service that never fails: its [n]-th answer is the iteration
    [its n]. *)
Definition always (its : nat -> Iteration) : nat -> reply :=
  fun n => Reply (its n).

(** A service that is down. *)
Definition down : nat -> reply := fun _ => Raises (ClientError "unreachable").

(** The events of the loop iterations that received the answers [its],
    starting from [iteration]: one request, one status line and one sleep
    for each. *)
Fixpoint cycles (project_id : string) (iteration : Iteration) (its : list Iteration)
  : list event :=
  match its with
  | [] => []
  | iteration' :: its' =>
      get_iteration project_id (id iteration)
        :: print (status_line (status iteration'))
        :: sleep 5
        :: cycles project_id iteration' its'
  end.

(** The iteration the loop holds after the answers [its]. *)
Definition current (iteration : Iteration) (its : list Iteration) : Iteration :=
  last its iteration.

(** Time: [dur k] is how long the [k]-th event of a trace takes; the span
    from the start of event [i] to the start of event [j] is the sum of
    the durations in between. *)
Fixpoint span (dur : nat -> Z) (i len : nat) : Z :=
  match len with
  | O => 0%Z
  | S len' => (dur i + span dur (S i) len')%Z
  end.

Definition elapsed (dur : nat -> Z) (i j : nat) : Z := span dur i (j - i).

(** A clock agrees with a trace when no event takes negative time and
    [time.sleep(secs)] suspends for at least [secs] seconds. *)
Definition clock_of (tr : list event) (dur : nat -> Z) : Prop :=
  (forall k, (0 <= dur k)%Z) /\
  (forall k secs, nth_error tr k = Some (sleep secs) -> (secs <= dur k)%Z).

(** The scenario of the specification:
    poll sequence Training, Training, Validating, Completed. *)
Definition scenario : list Iteration :=
  [ {| id := "it1"; status := "Training" |};
    {| id := "it1"; status := "Training" |};
    {| id := "it1"; status := "Validating" |};
    {| id := "it1"; status := "Completed" |} ].

Definition queued : Iteration := {| id := "it1"; status := "Queued" |}.

Definition training : Iteration := {| id := "it1"; status := "Training" |}.

Definition completed : Iteration := {| id := "it1"; status := "Completed" |}.

(** The last character of a line. *)
Fixpoint last_char (s : string) : option Ascii.ascii :=
  match s with
  | EmptyString => None
  | String c EmptyString => Some c
  | String _ s' => last_char s'
  end.

(** Every event of the loop is one of its three actions. *)
Definition loop_event (pid : string) (e : event) : Prop :=
  match e with
  | get_iteration p _ => p = pid
  | print _ => True
  | sleep secs => secs = 5%Z
  | _ => False
  end.

End TrainClassifier.

(** ** Binary64 constants *)

Module Binary64.

(** The literals [100], [50] and [0.5] of the scripts as binary64 numbers
    (sign, mantissa of 53 bits, exponent). *)
Definition hundred : spec_float := S754_finite false 7036874417766400 (-46).

Definition fifty : spec_float := S754_finite false 7036874417766400 (-47).

Definition half : spec_float := S754_finite false 4503599627370496 (-53).

End Binary64.

(** ** test-classifier.py *)

Module TestClassifier.

(** One element of [results.predictions]; [probability] is a Python
    float, that is an IEEE 754 binary64 number. *)
Record Prediction := { tag_name : string; probability : float }.

Inductive event :=
| classify_image (project_id model_name : string) (image_data : list Byte.byte)
| print (line : string).

Section Main.

(** ['{:.0%}'.format(x)], the percentage without decimals. *)
Variable format_percent : float -> string.

(** [': {} ({:.0%})'.format(prediction.tag_name, prediction.probability)] *)
Definition result_text (prediction : Prediction) : string :=
  (": " ++ tag_name prediction ++ " (" ++ format_percent (probability prediction) ++ ")")%string.

(** Lines 61-68:
<<
    for prediction in results.predictions:
        if prediction.probability > 0.5:
            print(image, ': {} ({:.0%})'.format(prediction.tag_name, prediction.probability))
>> *)
Fixpoint report (image : string) (predictions : list Prediction) : list event :=
  match predictions with
  | [] => []
  | prediction :: rest =>
      if (0.5 <? probability prediction)%float
      then print (print_args [image; result_text prediction]) :: report image rest
      else report image rest
  end.

(** The environment of [main]: the images on disk and the answers of the
    prediction service. *)
Variable project_id model_name : string.
Variable files : string -> option (list Byte.byte).
Variable classify : list Byte.byte -> exn + list Prediction.

(** Lines 49-68, the loop over [os.listdir('test-images')]. *)
Fixpoint classify_all (listing : list string) : outcome * list event :=
  match listing with
  | [] => (Returned, [])
  | image :: rest =>
      let image_path := path_join "test-images" image in
      match files image_path with
      | None => (Raised (FileNotFoundError image_path), [])
      | Some image_data =>
          match classify image_data with
          | inl ex => (Raised ex, [classify_image project_id model_name image_data])
          | inr predictions =>
              let (o, tr) := classify_all rest in
              (o, classify_image project_id model_name image_data
                    :: report image predictions ++ tr)
          end
      end
  end.

(** The [try] of [main] around the loop, lines 27-71. *)
Definition main_try (listing : list string) : outcome * list event :=
  let (o, tr) := classify_all listing in
  match o with
  | Raised ex => (Returned, tr ++ [print (str ex)])
  | _ => (o, tr)
  end.

End Main.

(** The test of line 65. *)
Definition confident (prediction : Prediction) : bool :=
  (0.5 <? probability prediction)%float.

End TestClassifier.

(** ** test-detector.py *)

Module TestDetector.

Record BoundingBox := { left : float; top : float; width : float; height : float }.

Record Prediction :=
  { tag_name : string; probability : float; bounding_box : BoundingBox }.

Inductive event :=
| print (line : string)
| draw_line (points : list (float * float)) (fill : string) (line_width : Z)
| annotate (text : string) (xy : float * float) (backgroundcolor : string)
| imshow
| savefig (outputfile : string).

(** Lines 74-79 of [main]:
<<
    for prediction in results.predictions:
        if (prediction.probability*100) > 50:
            print(prediction.tag_name)
>> *)
Fixpoint list_objects (predictions : list Prediction) : list event :=
  match predictions with
  | [] => []
  | prediction :: rest =>
      if (50 <? probability prediction * 100)%float
      then print (tag_name prediction) :: list_objects rest
      else list_objects rest
  end.

Section Drawing.

(** The conversions of Python between [int] and [float], and
    ["{0:.2f}".format(x)]. *)
Variable float_of_int : Z -> float.
Variable int_of_float : float -> Z.
Variable format_2f : float -> string.

(** The image is [w] pixels wide and [h] pixels high
    ([h, w, ch = np.array(image).shape]). *)
Variable w h : Z.

(** Line 130: [lineWidth = int(w/100)]. *)
Definition lineWidth : Z := int_of_float (float_of_int w / float_of_int 100)%float.

Definition color : string := "magenta".

(** Lines 144-147: the box of one object, in pixels. *)
Definition left_px (detected_object : Prediction) : float :=
  (left (bounding_box detected_object) * float_of_int w)%float.

Definition top_px (detected_object : Prediction) : float :=
  (top (bounding_box detected_object) * float_of_int h)%float.

Definition height_px (detected_object : Prediction) : float :=
  (height (bounding_box detected_object) * float_of_int h)%float.

Definition width_px (detected_object : Prediction) : float :=
  (width (bounding_box detected_object) * float_of_int w)%float.

(** Lines 152-158: the four corners, closed back to the first. *)
Definition points (detected_object : Prediction) : list (float * float) :=
  let left := left_px detected_object in
  let top := top_px detected_object in
  let height := height_px detected_object in
  let width := width_px detected_object in
  [ (left, top);
    ((left + width)%float, top);
    ((left + width)%float, (top + height)%float);
    (left, (top + height)%float);
    (left, top) ].

(** Line 165. *)
Definition label_text (detected_object : Prediction) : string :=
  (tag_name detected_object ++ ": "
     ++ format_2f (probability detected_object * 100)%float ++ "%")%string.

(** Lines 136-166, the loop of [save_tagged_images]:
<<
    for detected_object in detected_objects:
        if (detected_object.probability*100) > 50:
            ...
            draw.line(points, fill=color, width=lineWidth)
            ...
            plt.annotate(label_text, (left, top), backgroundcolor=color)
>> *)
Fixpoint draw_boxes (detected_objects : list Prediction) : list event :=
  match detected_objects with
  | [] => []
  | detected_object :: rest =>
      if (50 <? probability detected_object * 100)%float
      then draw_line (points detected_object) color lineWidth
             :: annotate (label_text detected_object)
                  (left_px detected_object, top_px detected_object) color
             :: draw_boxes rest
      else draw_boxes rest
  end.

(** Lines 136-178: the loop, then the figure is shown and saved. *)
Definition save_tagged_images (detected_objects : list Prediction) : list event :=
  draw_boxes detected_objects
    ++ [imshow; savefig "output.jpg"; print (print_args ["Results saved in"; "output.jpg"])].

End Drawing.

(** The test of lines 77 and 139. *)
Definition confident (prediction : Prediction) : bool :=
  (50 <? probability prediction * 100)%float.

(** What is known of a float: it is above one half. *)
Definition above_half (x : float) : bool := (0.5 <? x)%float.

End TestDetector.

(** ** add-tagged-images.py *)

Module AddTaggedImages.

(** A tag of the Custom Vision project, as [get_tags] returns it. *)
Record Tag := { id : string; name : string }.

Section Upload.

(** The JSON numbers of [tagged-images.json]; the script hands them on
    untouched. *)
Variable number : Type.

(** One element of [image['tags']] and one element of
    [tagged_images['files']], in the format the docstring of
    [Upload_Images] gives. *)
Record tagged_region :=
  { tag : string; tag_left : number; tag_top : number;
    tag_width : number; tag_height : number }.

Record tagged_image := { filename : string; image_tags : list tagged_region }.

(** The SDK models the script builds. *)
Record Region :=
  { tag_id : string; left : number; top : number; width : number; height : number }.

Record ImageFileCreateEntry :=
  { entry_name : string; contents : list Byte.byte; regions : list Region }.

(** The answer to the batch upload. *)
Record ImageCreateSummary :=
  { is_batch_successful : bool; images : list string }.

Inductive event :=
| print (line : string)
| get_tags (project_id : string)
| open_ (path : string)
| create_images_from_files (project_id : string) (batch : list ImageFileCreateEntry).

(** Computations that log events and may raise. *)
Definition M (A : Type) : Type := (exn + A) * list event.

Definition ret {A} (a : A) : M A := (inr a, []).

Definition raise {A} (ex : exn) : M A := (inl ex, []).

Definition emit (e : event) : M unit := (inr tt, [e]).

Definition bind {A B} (m : M A) (f : A -> M B) : M B :=
  match m with
  | (inl ex, tr) => (inl ex, tr)
  | (inr a, tr) => let (r, tr') := f a in (r, tr ++ tr')
  end.

(** An answer of the environment, turned into a computation. *)
Definition answer {A} (r : exn + A) : M A := (r, []).

Notation "x <- m ;; f" := (bind m (fun x => f))
  (at level 61, m at next level, right associativity).
Notation "m ;;; f" := (bind m (fun _ => f))
  (at level 61, right associativity).

(** The environment: the project, the answer to [get_tags], the parsed
    content of [tagged-images.json], the image files and the answer to the
    upload. *)
Variable project_id : string.
Variable project_tags : exn + list Tag.
Variable tagged_images_json : exn + list tagged_image.
Variable files : string -> option (list Byte.byte).
Variable upload : list ImageFileCreateEntry -> exn + ImageCreateSummary.

(** Line 140: [next(t for t in tags if t.name == tag_name).id]. *)
Definition lookup (tags : list Tag) (tag_name : string) : M string :=
  match find (fun t => name t =? tag_name) tags with
  | Some t => ret (id t)
  | None => raise StopIteration
  end.

(** Lines 132-151, the loop over [image['tags']]. *)
Fixpoint make_regions (tags : list Tag) (regions_json : list tagged_region)
  : M (list Region) :=
  match regions_json with
  | [] => ret []
  | t :: rest =>
      let tag_name := tag t in
      tag_id <- lookup tags tag_name ;;
      regions <- make_regions tags rest ;;
      ret ({| tag_id := tag_id; left := tag_left t; top := tag_top t;
              width := tag_width t; height := tag_height t |} :: regions)
  end.

(** Lines 156-159: [open(os.path.join(folder, file), mode="rb")] and
    [read]. *)
Definition read_image (folder file : string) : M (list Byte.byte) :=
  let path := path_join folder file in
  emit (open_ path) ;;;
  match files path with
  | Some data => ret data
  | None => raise (FileNotFoundError path)
  end.

(** Lines 122-159, the loop over [tagged_images['files']]. *)
Fixpoint make_batch (tags : list Tag) (folder : string) (images : list tagged_image)
  : M (list ImageFileCreateEntry) :=
  match images with
  | [] => ret []
  | image :: rest =>
      regions <- make_regions tags (image_tags image) ;;
      data <- read_image folder (filename image) ;;
      entries <- make_batch tags folder rest ;;
      ret ({| entry_name := filename image; contents := data; regions := regions |}
             :: entries)
  end.

(** Lines 175-177. *)
Fixpoint print_statuses (statuses : list string) : M unit :=
  match statuses with
  | [] => ret tt
  | status :: rest =>
      emit (print (print_args ["Image status: "; status])) ;;; print_statuses rest
  end.

(** [Upload_Images(folder)], lines 102-180. *)
Definition Upload_Images (folder : string) : M unit :=
  emit (print "Uploading images...") ;;;
  emit (get_tags project_id) ;;;
  tags <- answer project_tags ;;
  emit (open_ "tagged-images.json") ;;;
  tagged_images <- answer tagged_images_json ;;
  tagged_images_with_regions <- make_batch tags folder tagged_images ;;
  emit (create_images_from_files project_id tagged_images_with_regions) ;;;
  upload_result <- answer (upload tagged_images_with_regions) ;;
  if negb (is_batch_successful upload_result) then
    emit (print "Image batch upload failed.") ;;;
    print_statuses (images upload_result)
  else
    emit (print "Images uploaded.").

(** The [try] of [main], lines 38-67, around [Upload_Images('images')]. *)
Definition main_try : M unit :=
  match Upload_Images "images" with
  | (inl ex, tr) => (inr tt, tr ++ [print (str ex)])
  | r => r
  end.

(** The upload request, if any, in a trace. *)
Definition is_upload (e : event) : bool :=
  match e with create_images_from_files _ _ => true | _ => false end.

(** A tag name of the JSON file is known when some tag of the project
    carries it. *)
Definition known (tags : list Tag) (tag_name : string) : bool :=
  existsb (fun t => name t =? tag_name) tags.

(** No tag of the project carries the name of [t]. *)
Definition unmatched (tags : list Tag) (t : tagged_region) : Prop :=
  forall tg, In tg tags -> name tg <> tag t.

Definition all_known (tags : list Tag) (image : tagged_image) : bool :=
  forallb (fun t => known tags (tag t)) (image_tags image).

Definition readable (folder : string) (image : tagged_image) : bool :=
  match files (path_join folder (filename image)) with
  | Some _ => true
  | None => false
  end.

End Upload.

Arguments tag {number}.
Arguments tag_left {number}.
Arguments tag_top {number}.
Arguments tag_width {number}.
Arguments tag_height {number}.
Arguments filename {number}.
Arguments image_tags {number}.
Arguments tag_id {number}.
Arguments entry_name {number}.
Arguments contents {number}.
Arguments regions {number}.
Arguments print {number}.
Arguments get_tags {number}.
Arguments open_ {number}.
Arguments create_images_from_files {number}.
Arguments bind {number A B}.
Arguments lookup {number}.
Arguments make_regions {number}.
Arguments read_image {number}.
Arguments make_batch {number}.
Arguments Upload_Images {number}.
Arguments main_try {number}.
Arguments is_upload {number}.
Arguments all_known {number}.
Arguments unmatched {number}.
Arguments readable {number}.

(** A small project: two tags, three tagged images of which the second
    names a tag the project does not have, all files in place, and a
    service that accepts every batch. *)
Definition demo_tags : list Tag :=
  [ {| id := "id-apple"; name := "apple" |};
    {| id := "id-banana"; name := "banana" |} ].

Definition demo_region (tag_name : string) : tagged_region Z :=
  {| tag := tag_name; tag_left := 1%Z; tag_top := 2%Z;
     tag_width := 3%Z; tag_height := 4%Z |}.

Definition demo_images : list (tagged_image Z) :=
  [ {| filename := "image1.jpg"; image_tags := [demo_region "apple"] |};
    {| filename := "image2.jpg";
       image_tags := [demo_region "banana"; demo_region "pear"] |};
    {| filename := "image3.jpg"; image_tags := [demo_region "banana"] |} ].

Definition demo_files (path : string) : option (list Byte.byte) :=
  if String.prefix "images/" path then Some [] else None.

Definition demo_upload (batch : list (ImageFileCreateEntry Z))
  : exn + ImageCreateSummary :=
  inr {| is_batch_successful := true; images := map (fun _ => "OK") batch |}.

End AddTaggedImages.

(** ** train-classifier.py: [Upload_Images] and [main] *)

Module TrainClassifierMain.

(** A tag of the project, as [get_tags] returns it. *)
Record Tag := { id : string; name : string }.

(** The actions of [main]: the request for the project, then those of
    [Upload_Images] and [Train_Model]. *)
Inductive event :=
| get_project (project_id : string)
| client (e : TrainClassifier.event).

Section Main.

(** [custom_vision_project.id]. *)
Variable project_id : string.

(** The environment of [Upload_Images]: the answer to [get_tags], the
    folders and files on disk ([os.listdir] and [open] fail on a path that
    is [None]), and for each [create_images_from_data] request, counted
    from 0, whether it raises. *)
Variable project_tags : exn + list Tag.
Variable listdir : string -> option (list string).
Variable files : string -> option (list Byte.byte).
Variable answers : nat -> option exn.

(** Lines 113-120, the loop over the images of one tag folder; [n] counts
    the upload requests made so far:
<<
        for image in os.listdir(tag_folder_path):
            image_path = os.path.join(tag_folder_path, image)
            image_data = open(image_path, "rb").read()
            training_client.create_images_from_data(custom_vision_project.id, image_data, [tag.id])
>> *)
Fixpoint upload_folder (tag : Tag) (tag_folder_path : string) (images : list string)
  (n : nat) : outcome * list TrainClassifier.event * nat :=
  match images with
  | [] => (Returned, [], n)
  | image :: rest =>
      let image_path := path_join tag_folder_path image in
      match files image_path with
      | None => (Raised (FileNotFoundError image_path), [], n)
      | Some image_data =>
          let request :=
            TrainClassifier.create_images_from_data project_id image_data [id tag] in
          match answers n with
          | Some ex => (Raised ex, [request], S n)
          | None =>
              let '(o, tr, n') := upload_folder tag tag_folder_path rest (S n) in
              (o, request :: tr, n')
          end
      end
  end.

(** Lines 106-120, the loop over the tags. *)
Fixpoint upload_tags (folder : string) (tags : list Tag) (n : nat)
  : outcome * list TrainClassifier.event * nat :=
  match tags with
  | [] => (Returned, [], n)
  | tag :: rest =>
      let tag_folder_path := path_join folder (name tag) in
      match listdir tag_folder_path with
      | None =>
          (Raised (FileNotFoundError tag_folder_path),
           [TrainClassifier.print (name tag)], n)
      | Some images =>
          let '(o, tr, n') := upload_folder tag tag_folder_path images n in
          match o with
          | Returned =>
              let '(o', tr', n'') := upload_tags folder rest n' in
              (o', TrainClassifier.print (name tag) :: tr ++ tr', n'')
          | _ => (o, TrainClassifier.print (name tag) :: tr, n')
          end
      end
  end.

(** [Upload_Images(folder)], lines 99-120. *)
Definition Upload_Images (folder : string) : outcome * list TrainClassifier.event :=
  match project_tags with
  | inl ex =>
      (Raised ex,
       [TrainClassifier.print "Uploading images..."; TrainClassifier.get_tags project_id])
  | inr tags =>
      let '(o, tr, _) := upload_tags folder tags 0 in
      (o, TrainClassifier.print "Uploading images..."
            :: TrainClassifier.get_tags project_id :: tr)
  end.

End Main.

(** [main], lines 36-71: the project is fetched, the images are uploaded,
    the model is trained; whatever is raised on the way is printed.
    [env_project_id] is the [ProjectID] of the environment and [project]
    the answer to [get_project], the id of the project when there is one.
    Clearing the console and reading the settings leave no event. *)
Definition main (env_project_id : string) (project : exn + string)
  (project_tags : exn + list Tag) (listdir : string -> option (list string))
  (files : string -> option (list Byte.byte)) (answers : nat -> option exn)
  (fuel : nat) (submit : TrainClassifier.reply) (service : nat -> TrainClassifier.reply)
  : outcome * list event :=
  match project with
  | inl ex =>
      (Returned, [get_project env_project_id; client (TrainClassifier.print (str ex))])
  | inr project_id =>
      let (o, tr) :=
        Upload_Images project_id project_tags listdir files answers
          "more-training-images" in
      match o with
      | Returned =>
          let (o', tr') := TrainClassifier.Train_Model project_id fuel submit service in
          match o' with
          | Raised ex =>
              (Returned,
               get_project env_project_id
                 :: map client (tr ++ tr' ++ [TrainClassifier.print (str ex)]))
          | _ => (o', get_project env_project_id :: map client (tr ++ tr'))
          end
      | Raised ex =>
          (Returned,
           get_project env_project_id
             :: map client (tr ++ [TrainClassifier.print (str ex)]))
      | Pending => (Pending, get_project env_project_id :: map client tr)
      end
  end.

(** The upload requests of a trace, as pairs of image data and tag ids. *)
Fixpoint uploads (tr : list TrainClassifier.event) : list (list Byte.byte * list string) :=
  match tr with
  | [] => []
  | TrainClassifier.create_images_from_data _ image_data tag_ids :: tr' =>
      (image_data, tag_ids) :: uploads tr'
  | _ :: tr' => uploads tr'
  end.

(** The events of [main] that come from the two functions it calls. *)
Fixpoint client_events (tr : list event) : list TrainClassifier.event :=
  match tr with
  | [] => []
  | client e :: tr' => e :: client_events tr'
  | _ :: tr' => client_events tr'
  end.

(** The work [Upload_Images] has to do: for each tag in turn, the images
    of its folder, each with the path it is read from. A folder that
    cannot be listed counts for nothing. *)
Definition folder_work (listdir : string -> option (list string)) (folder : string)
  (tag : Tag) : list (Tag * string) :=
  match listdir (path_join folder (name tag)) with
  | Some images =>
      map (fun image => (tag, path_join (path_join folder (name tag)) image)) images
  | None => []
  end.

Definition work (listdir : string -> option (list string)) (folder : string)
  (tags : list Tag) : list (Tag * string) :=
  flat_map (folder_work listdir folder) tags.

(** The content of a file that is there. *)
Definition content (files : string -> option (list Byte.byte)) (path : string)
  : list Byte.byte :=
  match files path with
  | Some data => data
  | None => []
  end.

(** The upload a piece of work asks for: the content of the file, under
    the one id of its tag. *)
Definition sent (files : string -> option (list Byte.byte)) (w : Tag * string)
  : list Byte.byte * list string :=
  (content files (snd w), [id (fst w)]).

(** A small training set: two tags, three images. *)
Definition demo_tags : list Tag :=
  [ {| id := "id-apple"; name := "apple" |}; {| id := "id-banana"; name := "banana" |} ].

Definition demo_listdir (path : string) : option (list string) :=
  if path =? "more-training-images/apple" then Some ["a1.jpg"; "a2.jpg"]
  else if path =? "more-training-images/banana" then Some ["b1.jpg"]
  else None.

Definition demo_files (path : string) : option (list Byte.byte) :=
  if String.prefix "more-training-images/" path
  then Some (list_byte_of_string path) else None.

(** A service that accepts every upload, and one that rejects the second. *)
Definition accepting : nat -> option exn := fun _ => None.

Definition second_fails : nat -> option exn :=
  fun n => if Nat.eqb n 1 then Some (ClientError "quota exceeded") else None.

(** The ids the [get_iteration] requests of a trace carry. *)
Fixpoint request_ids (tr : list TrainClassifier.event) : list string :=
  match tr with
  | [] => []
  | TrainClassifier.get_iteration _ iteration_id :: tr' => iteration_id :: request_ids tr'
  | _ :: tr' => request_ids tr'
  end.

End TrainClassifierMain.

(** ** test-classifier.py: one turn of the loop of [main] *)

Module TestClassifierMain.

Section Loop.

Variable format_percent : float -> string.
Variable project_id model_name : string.
Variable files : string -> option (list Byte.byte).
Variable classify : list Byte.byte -> exn + list TestClassifier.Prediction.

(** Lines 50-68, the body of the loop for one [image]: the file is read,
    sent to the service, and the answer reported. *)
Definition classify_one (image : string) : outcome * list TestClassifier.event :=
  let image_path := path_join "test-images" image in
  match files image_path with
  | None => (Raised (FileNotFoundError image_path), [])
  | Some image_data =>
      match classify image_data with
      | inl ex =>
          (Raised ex, [TestClassifier.classify_image project_id model_name image_data])
      | inr predictions =>
          (Returned,
           TestClassifier.classify_image project_id model_name image_data
             :: TestClassifier.report format_percent image predictions)
      end
  end.

End Loop.

(** The lines of a trace and the images it sent. *)
Fixpoint printed (tr : list TestClassifier.event) : list string :=
  match tr with
  | [] => []
  | TestClassifier.print line :: tr' => line :: printed tr'
  | _ :: tr' => printed tr'
  end.

Fixpoint requests (tr : list TestClassifier.event) : list (list Byte.byte) :=
  match tr with
  | [] => []
  | TestClassifier.classify_image _ _ image_data :: tr' => image_data :: requests tr'
  | _ :: tr' => requests tr'
  end.

(** Three test images: the second is not on the disk. *)
Definition demo_files (path : string) : option (list Byte.byte) :=
  if path =? "test-images/IMG_TEST_2.jpg" then None
  else Some (list_byte_of_string path).

Definition demo_classify (image_data : list Byte.byte)
  : exn + list TestClassifier.Prediction :=
  inr [ {| TestClassifier.tag_name := "apple"; TestClassifier.probability := 0.75%float |};
        {| TestClassifier.tag_name := "banana"; TestClassifier.probability := 0.25%float |} ].

Definition demo_percent (x : float) : string :=
  if (x =? 0.75)%float then "75%" else "?".

End TestClassifierMain.

(** ** test-detector.py: [save_tagged_images] from its first line, and
       [main] *)

Module TestDetectorMain.

(** What can be raised here: the exceptions of the other scripts, and the
    [ValueError] of an unpacking that does not fit. *)
Inductive error :=
| Exception (ex : exn)
| ValueError (msg : string).

Definition message (e : error) : string :=
  match e with
  | Exception ex => str ex
  | ValueError msg => msg
  end.

(** The actions of [main]: the request to the prediction service, and the
    prints and drawing actions. *)
Inductive event :=
| detect_image (project_id model_name : string) (image_data : list Byte.byte)
| run (e : TestDetector.event).

(** Line 115, [h, w, ch = np.array(image).shape]: the shape has to have
    exactly three entries. *)
Definition unpack (shape : list Z) : error + Z * Z * Z :=
  match shape with
  | [h; w; ch] => inr (h, w, ch)
  | [] => inl (ValueError "not enough values to unpack (expected 3, got 0)")
  | [_] => inl (ValueError "not enough values to unpack (expected 3, got 1)")
  | [_; _] => inl (ValueError "not enough values to unpack (expected 3, got 2)")
  | _ => inl (ValueError "too many values to unpack (expected 3)")
  end.

Section Main.

Variable float_of_int : Z -> float.
Variable int_of_float : float -> Z.
Variable format_2f : float -> string.

(** [save_tagged_images(source_path, detected_objects)], lines 111-178.
    [image] is what [Image.open(source_path)] gives: an exception, or a
    picture of which only the shape of its array matters. *)
Definition save_tagged_images (image : exn + list Z)
  (detected_objects : list TestDetector.Prediction)
  : option error * list TestDetector.event :=
  match image with
  | inl ex => (Some (Exception ex), [])
  | inr shape =>
      match unpack shape with
      | inl e => (Some e, [])
      | inr (h, w, ch) =>
          (None,
           TestDetector.save_tagged_images float_of_int int_of_float format_2f w h
             detected_objects)
      end
  end.

(** The environment of [main]: the settings, the file [produce.jpg] as
    [open] and as [Image.open] find it, and the answer of the service. *)
Variable project_id model_name : string.
Variable files : string -> option (list Byte.byte).
Variable detect : list Byte.byte -> exn + list TestDetector.Prediction.
Variable image : exn + list Z.

Definition image_file : string := "produce.jpg".

(** [main], lines 30-91; every exception ends in the [print(ex)] of the
    handler. *)
Definition main : list event :=
  run (TestDetector.print (print_args ["Detecting objects in"; image_file]))
    :: match files image_file with
       | None => [run (TestDetector.print (str (FileNotFoundError image_file)))]
       | Some image_data =>
           detect_image project_id model_name image_data
             :: match detect image_data with
                | inl ex => [run (TestDetector.print (str ex))]
                | inr predictions =>
                    map run (TestDetector.list_objects predictions)
                      ++ match save_tagged_images image predictions with
                         | (Some e, tr) =>
                             map run tr ++ [run (TestDetector.print (message e))]
                         | (None, tr) => map run tr
                         end
                end
       end.

End Main.

(** The tag name printed for a prediction, and the box and the label drawn
    for it. *)
Definition name_line (p : TestDetector.Prediction) : event :=
  run (TestDetector.print (TestDetector.tag_name p)).

Definition box (float_of_int : Z -> float) (int_of_float : float -> Z)
  (format_2f : float -> string) (w h : Z) (p : TestDetector.Prediction) : list event :=
  [ run (TestDetector.draw_line (TestDetector.points float_of_int w h p)
           TestDetector.color (TestDetector.lineWidth float_of_int int_of_float w));
    run (TestDetector.annotate (TestDetector.label_text format_2f p)
           (TestDetector.left_px float_of_int w p, TestDetector.top_px float_of_int h p)
           TestDetector.color) ].


Definition heading : event := run (TestDetector.print "Detecting objects in produce.jpg").

(** The predictions that pass the test. *)
Definition confident (predictions : list TestDetector.Prediction)
  : list TestDetector.Prediction :=
  filter (fun p => (0.5 <? TestDetector.probability p)%float) predictions.

(** A picture of 640 by 480 with an apple found and a banana doubted. *)
Definition demo_float_of_int (z : Z) : float :=
  if Z.eqb z 640 then 640%float
  else if Z.eqb z 480 then 480%float
  else if Z.eqb z 100 then 100%float
  else 0%float.

Definition demo_int_of_float (x : float) : Z :=
  if (x =? 0x1.999999999999ap+2)%float then 6%Z else 0%Z.

Definition demo_2f (x : float) : string :=
  if (x =? 75)%float then "75.00" else "?".

Definition demo_predictions : list TestDetector.Prediction :=
  [ {| TestDetector.tag_name := "apple"; TestDetector.probability := 0.75%float;
       TestDetector.bounding_box := TestDetector.Build_BoundingBox 0.25 0.5 0.5 0.25 |};
    {| TestDetector.tag_name := "banana"; TestDetector.probability := 0.25%float;
       TestDetector.bounding_box := TestDetector.Build_BoundingBox 0 0 1 1 |} ].

Definition demo_files (path : string) : option (list Byte.byte) :=
  if path =? "produce.jpg" then Some (list_byte_of_string "JFIF") else None.

Definition demo_detect (image_data : list Byte.byte)
  : exn + list TestDetector.Prediction :=
  inr demo_predictions.

End TestDetectorMain.

(** ** add-tagged-images.py: the batch that is sent *)

Module AddTaggedImagesBatch.
Import AddTaggedImages.

(** The id of the first tag of the project that carries a name. *)
Definition first_id (tags : list Tag) (tag_name : string) : string :=
  match find (fun t => name t =? tag_name) tags with
  | Some t => id t
  | None => ""
  end.

(** The region built for a tagged region of the file, and the entry built
    for a tagged image. *)
Definition region {number} (tags : list Tag) (t : tagged_region number) : Region number :=
  {| tag_id := first_id tags (tag t); left := tag_left t; top := tag_top t;
     width := tag_width t; height := tag_height t |}.

Definition file_content (files : string -> option (list Byte.byte)) (path : string)
  : list Byte.byte :=
  match files path with
  | Some data => data
  | None => []
  end.

Definition entry {number} (files : string -> option (list Byte.byte)) (tags : list Tag)
  (folder : string) (image : tagged_image number) : ImageFileCreateEntry number :=
  {| entry_name := filename image;
     contents := file_content files (path_join folder (filename image));
     regions := map (region tags) (image_tags image) |}.

(** The lines that report the answer to the upload. *)
Definition report_lines (summary : ImageCreateSummary) : list string :=
  if is_batch_successful summary then ["Images uploaded."]
  else "Image batch upload failed."
         :: map (fun status => print_args ["Image status: "; status]) (images summary).

Fixpoint printed {number} (tr : list (event number)) : list string :=
  match tr with
  | [] => []
  | print line :: tr' => line :: printed tr'
  | _ :: tr' => printed tr'
  end.

(** A project with two tags of the same name, and a service that rejects
    the batch. *)
Definition twin_tags : list Tag :=
  [ {| id := "id-1"; name := "apple" |}; {| id := "id-2"; name := "apple" |} ].

Definition demo_known : list (tagged_image Z) :=
  [ {| filename := "image1.jpg"; image_tags := [demo_region "apple"] |};
    {| filename := "image3.jpg"; image_tags := [demo_region "banana"] |} ].

Definition demo_rejecting (batch : list (ImageFileCreateEntry Z))
  : exn + ImageCreateSummary :=
  inr {| is_batch_successful := false; images := map (fun _ => "ErrorSource") batch |}.

Definition demo_missing (path : string) : option (list Byte.byte) :=
  if path =? "images/image3.jpg" then None else Some [].

End AddTaggedImagesBatch.

(** * Properties of the training watcher *)

Module TrainClassifierSpec.
Import TrainClassifier.

Lemma terminal_true (s : string) : terminal s = true <-> s = "Completed".
Proof. unfold terminal. apply String.eqb_eq. Qed.

Lemma terminal_false (s : string) : terminal s = false <-> s <> "Completed".
Proof. unfold terminal. apply String.eqb_neq. Qed.

(** The two unfoldings of the loop. *)
Lemma while_loop_exit pid fuel service it :
  status it = "Completed" -> while_loop pid fuel service it = (Returned, []).
Proof.
  intros H. destruct fuel; simpl; rewrite H; reflexivity.
Qed.

Lemma while_loop_poll pid fuel service it :
  status it <> "Completed" ->
  while_loop pid (S fuel) service it =
  match service O with
  | Raises ex => (Raised ex, [get_iteration pid (id it)])
  | Reply it' =>
      (fst (while_loop pid fuel (later service) it'),
       get_iteration pid (id it) :: print (status_line (status it')) :: sleep 5
         :: snd (while_loop pid fuel (later service) it'))
  end.
Proof.
  intros H. apply String.eqb_neq in H. simpl. rewrite H. simpl.
  destruct (service O) as [it'|ex]; [|reflexivity].
  destruct (while_loop pid fuel (later service) it'); reflexivity.
Qed.

Lemma while_loop_pending pid service it :
  status it <> "Completed" -> while_loop pid 0 service it = (Pending, []).
Proof. intros H. apply String.eqb_neq in H. simpl. rewrite H. reflexivity. Qed.

Lemma later_script r l rest : later (script (r :: l) rest) = script l rest.
Proof. reflexivity. Qed.

Lemma script_nil rest n : script [] rest n = rest n.
Proof. unfold script. destruct n; simpl; f_equal. Qed.

Lemma current_cons its : forall it i, current it (i :: its) = current i its.
Proof.
  unfold current. induction its as [|j its IH]; intros it i; [reflexivity|].
  change (last (i :: j :: its) it) with (last (j :: its) it).
  rewrite (IH it j), (IH i j). reflexivity.
Qed.

(** Running through a prefix of answers none of which is terminal: the
    loop goes through one cycle for each and carries on from the last. *)
Lemma while_loop_prefix pid its :
  forall it fuel tl rest,
    status it <> "Completed" ->
    Forall (fun i => status i <> "Completed") its ->
    while_loop pid (length its + fuel) (script (map Reply its ++ tl) rest) it =
    (fst (while_loop pid fuel (script tl rest) (current it its)),
     cycles pid it its ++ snd (while_loop pid fuel (script tl rest) (current it its))).
Proof.
  induction its as [|i its IH]; intros it fuel tl rest Hit Hall.
  - simpl. destruct (while_loop pid fuel (script tl rest) it); reflexivity.
  - inversion Hall as [|? ? Hi Hits]; subst.
    change (length (i :: its) + fuel) with (S (length its + fuel)).
    rewrite while_loop_poll by assumption.
    change (script (map Reply (i :: its) ++ tl) rest O) with (Reply i).
    change (map Reply (i :: its) ++ tl) with (Reply i :: (map Reply its ++ tl)).
    rewrite later_script, IH, current_cons by assumption.
    reflexivity.
Qed.

Lemma polls_app a b : polls (a ++ b) = polls a + polls b.
Proof. unfold polls. rewrite filter_app, length_app. reflexivity. Qed.

Lemma printed_app a b : printed (a ++ b) = printed a ++ printed b.
Proof.
  induction a as [|e a IH]; [reflexivity|].
  destruct e; simpl; rewrite IH; reflexivity.
Qed.

Lemma sleeps_app a b : sleeps (a ++ b) = sleeps a ++ sleeps b.
Proof.
  induction a as [|e a IH]; [reflexivity|].
  destruct e; simpl; rewrite IH; reflexivity.
Qed.

Lemma polls_cycles pid its : forall it, polls (cycles pid it its) = length its.
Proof.
  induction its as [|i its IH]; intros it; [reflexivity|].
  simpl. unfold polls in *. simpl. rewrite IH. reflexivity.
Qed.

Lemma printed_cycles pid its :
  forall it, printed (cycles pid it its) = map (fun i => status_line (status i)) its.
Proof.
  induction its as [|i its IH]; intros it; [reflexivity|].
  simpl. rewrite IH. reflexivity.
Qed.

Lemma sleeps_cycles pid its :
  forall it, sleeps (cycles pid it its) = repeat 5%Z (length its).
Proof.
  induction its as [|i its IH]; intros it; [reflexivity|].
  simpl. rewrite IH. reflexivity.
Qed.

Lemma current_nonterminal its :
  forall it,
    status it <> "Completed" ->
    Forall (fun i => status i <> "Completed") its ->
    status (current it its) <> "Completed".
Proof.
  induction its as [|i its IH]; intros it Hit Hall; [exact Hit|].
  inversion Hall; subst. rewrite current_cons. apply IH; assumption.
Qed.

Lemma cycles_snoc pid its :
  forall it final,
    cycles pid it (its ++ [final]) =
    cycles pid it its ++
      [get_iteration pid (id (current it its)); print (status_line (status final)); sleep 5].
Proof.
  induction its as [|i its IH]; intros it final; [reflexivity|].
  cbn [app cycles]. rewrite IH, current_cons. reflexivity.
Qed.

(** The answer that follows a prefix of non-terminal ones decides how the
    loop goes on. *)
Lemma while_loop_next pid its it r tl rest fuel :
  status it <> "Completed" ->
  Forall (fun i => status i <> "Completed") its ->
  while_loop pid (length its + S fuel) (script (map Reply its ++ r :: tl) rest) it =
  match r with
  | Raises ex =>
      (Raised ex, cycles pid it its ++ [get_iteration pid (id (current it its))])
  | Reply final =>
      (fst (while_loop pid fuel (script tl rest) final),
       cycles pid it (its ++ [final]) ++ snd (while_loop pid fuel (script tl rest) final))
  end.
Proof.
  intros Hit Hall.
  rewrite while_loop_prefix by assumption.
  rewrite while_loop_poll by (apply current_nonterminal; assumption).
  change (script (r :: tl) rest O) with r.
  destruct r as [final|ex]; simpl fst; simpl snd.
  - rewrite later_script, cycles_snoc, <- app_assoc. reflexivity.
  - reflexivity.
Qed.

Lemma length_snoc {A} (l : list A) (x : A) fuel :
  length (l ++ [x]) + fuel = length l + S fuel.
Proof. rewrite length_app. simpl. lia. Qed.

(** C1, as stated, fails on the scenario of the specification: with the
    answers Training, Training, Validating, Completed the loop makes four
    polls, but it does not stay silent on the terminal answer. The run
    prints the line "Completed ..." as well, so the output is not the three
    non-terminal status lines followed by the completion line. *)
Lemma terminal_status_is_printed :
  let r := watch "proj" 4 (script (map Reply scenario) down) queued in
  fst r = Returned /\
  polls (snd r) = 4 /\
  printed (snd r) =
    ["Training ..."; "Training ..."; "Validating ..."; "Completed ..."; "Model trained!"] /\
  ~ (printed (snd r) =
       map status_line ["Training"; "Training"; "Validating"] ++ ["Model trained!"]).
Proof.
  cbv zeta. repeat split; try reflexivity.
  vm_compute. discriminate.
Qed.

(** C1, amended: for every finite sequence of poll answers whose last
    element has the status "Completed" and whose earlier elements have
    other statuses, the loop (entered with a status other than
    "Completed") returns after exactly that many [get_iteration] calls and
    prints exactly one status line per answer, the terminal one included,
    followed by "Model trained!". *)
Theorem watch_prints_every_answer pid it its final rest fuel :
  status it <> "Completed" ->
  Forall (fun i => status i <> "Completed") its ->
  status final = "Completed" ->
  let r := watch pid (length (its ++ [final]) + fuel)
             (script (map Reply (its ++ [final])) rest) it in
  fst r = Returned /\
  snd r = cycles pid it (its ++ [final]) ++ [print "Model trained!"] /\
  polls (snd r) = length (its ++ [final]) /\
  printed (snd r) =
    map (fun i => status_line (status i)) (its ++ [final]) ++ ["Model trained!"].
Proof.
  intros Hit Hall Hfinal r.
  assert (Hr : r = (Returned, cycles pid it (its ++ [final]) ++ [print "Model trained!"])).
  { subst r. unfold watch.
    rewrite map_app, length_snoc. simpl map.
    rewrite while_loop_next by assumption.
    rewrite while_loop_exit by assumption. simpl.
    rewrite app_nil_r. reflexivity. }
  rewrite Hr. simpl fst. simpl snd.
  rewrite polls_app, printed_app, polls_cycles, printed_cycles.
  repeat split. unfold polls. simpl. lia.
Qed.

Lemma watch_prints_every_answer_witness :
  (status queued <> "Completed" /\
   Forall (fun i => status i <> "Completed") (firstn 3 scenario) /\
   status (last scenario queued) = "Completed") /\
  let r := watch "proj" (length scenario + 3) (script (map Reply scenario) down) queued in
  fst r = Returned /\
  snd r = cycles "proj" queued scenario ++ [print "Model trained!"] /\
  polls (snd r) = length scenario /\
  printed (snd r) =
    map (fun i => status_line (status i)) scenario ++ ["Model trained!"].
Proof.
  assert (H0 : status queued <> "Completed") by (simpl; discriminate).
  assert (H1 : Forall (fun i => status i <> "Completed") (firstn 3 scenario))
    by (simpl; repeat constructor; simpl; discriminate).
  assert (H2 : status (last scenario queued) = "Completed") by reflexivity.
  split; [ repeat split; assumption | ].
  exact (watch_prints_every_answer "proj" queued
           (firstn 3 scenario) (last scenario queued) down 3 H0 H1 H2).
Defined.

(** C3: if the N-th [get_iteration] call raises (the N-1 answers before it
    being statuses that keep the loop going), the loop ends with that very
    exception: it has made exactly N requests, the last event of its trace
    is the failed request, and it has printed exactly the N-1 status lines
    of the earlier answers and nothing for call N. The answers the service
    would give afterwards play no part, and a longer budget changes
    nothing. [watch] and [Train_Model] pass the exception on without
    printing the completion line, and the handler of [main] prints it. *)
Theorem poll_error_propagates pid it its ex rest fuel :
  status it <> "Completed" ->
  Forall (fun i => status i <> "Completed") its ->
  let service := script (map Reply its ++ [Raises ex]) rest in
  let r := while_loop pid (length its + S fuel) service it in
  fst r = Raised ex /\
  snd r = cycles pid it its ++ [get_iteration pid (id (current it its))] /\
  polls (snd r) = S (length its) /\
  printed (snd r) = map (fun i => status_line (status i)) its /\
  watch pid (length its + S fuel) service it = r /\
  Train_Model pid (length its + S fuel) (Reply it) service =
    (Raised ex, print "Training ..." :: train_project pid :: snd r) /\
  main_try pid (length its + S fuel) (Reply it) service =
    (Returned, print "Training ..." :: train_project pid :: snd r ++ [print (str ex)]).
Proof.
  intros Hit Hall service r.
  assert (Hr : r = (Raised ex, cycles pid it its ++ [get_iteration pid (id (current it its))])).
  { subst r service. rewrite while_loop_next by assumption. reflexivity. }
  assert (Hw : watch pid (length its + S fuel) service it = r).
  { unfold watch. fold r. rewrite Hr. reflexivity. }
  repeat split.
  - rewrite Hr. reflexivity.
  - rewrite Hr. reflexivity.
  - rewrite Hr. simpl snd. rewrite polls_app, polls_cycles. unfold polls. simpl. lia.
  - rewrite Hr. simpl snd. rewrite printed_app, printed_cycles. simpl. apply app_nil_r.
  - exact Hw.
  - unfold Train_Model. rewrite Hw, Hr. reflexivity.
  - unfold main_try, Train_Model. rewrite Hw, Hr. reflexivity.
Qed.

Lemma poll_error_propagates_witness :
  (status queued <> "Completed" /\
   Forall (fun i => status i <> "Completed") [training]) /\
  let service := script (map Reply [training] ++ [Raises (ClientError "timed out")])
                   (always (fun _ => training)) in
  let r := while_loop "proj" (length [training] + 5) service queued in
  fst r = Raised (ClientError "timed out") /\
  snd r = cycles "proj" queued [training]
            ++ [get_iteration "proj" (id (current queued [training]))] /\
  polls (snd r) = 2 /\
  printed (snd r) = map (fun i => status_line (status i)) [training] /\
  watch "proj" (length [training] + 5) service queued = r /\
  Train_Model "proj" (length [training] + 5) (Reply queued) service =
    (Raised (ClientError "timed out"),
     print "Training ..." :: train_project "proj" :: snd r) /\
  main_try "proj" (length [training] + 5) (Reply queued) service =
    (Returned,
     print "Training ..." :: train_project "proj" :: snd r ++ [print "timed out"]).
Proof.
  assert (H0 : status queued <> "Completed") by (simpl; discriminate).
  assert (H1 : Forall (fun i => status i <> "Completed") [training])
    by (repeat constructor; simpl; discriminate).
  split; [ split; assumption | ].
  exact (poll_error_propagates "proj" queued [training] (ClientError "timed out")
           (always (fun _ => training)) 4 H0 H1).
Defined.

(** String facts about the lines of the loop. *)
Lemma status_line_eq (s : string) : status_line s = (s ++ " ...")%string.
Proof. reflexivity. Qed.

Lemma last_char_status_line (s : string) : last_char (status_line s) = Some "."%char.
Proof.
  rewrite status_line_eq.
  induction s as [|c s IH]; [reflexivity|].
  simpl. destruct (s ++ " ...")%string eqn:E.
  - destruct s; discriminate.
  - exact IH.
Qed.

Lemma status_line_not_completion (s : string) : status_line s <> "Model trained!".
Proof.
  intros H. pose proof (last_char_status_line s) as L.
  rewrite H in L. discriminate.
Qed.

Lemma append_inj_l (x : string) : forall s t : string, (s ++ x = t ++ x)%string -> s = t.
Proof.
  assert (Hlen : forall a b : string,
             String.length (a ++ b) = String.length a + String.length b).
  { induction a as [|c a IH]; intros b; simpl; [reflexivity | rewrite IH; reflexivity]. }
  induction s as [|c s IH]; intros [|d t] H.
  - reflexivity.
  - apply (f_equal String.length) in H. simpl in H. rewrite Hlen in H. lia.
  - apply (f_equal String.length) in H. simpl in H. rewrite Hlen in H. lia.
  - simpl in H. injection H as Hc Ht. subst d. f_equal. apply IH. exact Ht.
Qed.

Lemma status_line_inj (s t : string) : status_line s = status_line t -> s = t.
Proof. rewrite !status_line_eq. apply append_inj_l. Qed.

(** C4: when the status "Completed" is there at the first look, the
    watcher stops without asking again and prints the completion line
    exactly once and no line for a non-terminal status. If it is the
    iteration returned by [train_project] (line 142) that is already
    "Completed", the loop body never runs: no request, no sleep, and the
    output is the single line "Model trained!". If it is the first
    [get_iteration] answer, the loop makes that one request only; the body
    runs once, so the trace also holds the line "Completed ..." and one
    sleep before the completion line. *)
Theorem completed_at_first_look pid fuel service it it1 :
  (status it = "Completed" ->
   watch pid fuel service it = (Returned, [print "Model trained!"])) /\
  (status it <> "Completed" ->
   service O = Reply it1 ->
   status it1 = "Completed" ->
   let r := watch pid (S fuel) service it in
   r = (Returned,
        [get_iteration pid (id it); print "Completed ..."; sleep 5;
         print "Model trained!"]) /\
   polls (snd r) = 1 /\
   (forall s, s <> "Completed" -> ~ In (status_line s) (printed (snd r))) /\
   count_occ string_dec (printed (snd r)) "Model trained!" = 1).
Proof.
  split.
  - intros H. unfold watch. rewrite while_loop_exit by assumption. reflexivity.
  - intros Hit Hs H1 r.
    assert (Hr : r = (Returned,
                      [get_iteration pid (id it); print "Completed ..."; sleep 5;
                       print "Model trained!"])).
    { subst r. unfold watch. rewrite while_loop_poll by assumption.
      rewrite Hs, while_loop_exit by assumption. rewrite H1. reflexivity. }
    rewrite Hr. repeat split.
    intros s Hne [Hin|[Hin|[]]].
    + apply Hne. apply status_line_inj. symmetry. exact Hin.
    + apply (status_line_not_completion s). symmetry. exact Hin.
Qed.

Lemma completed_at_first_look_witness :
  (status completed = "Completed" /\
   watch "proj" 3 down completed = (Returned, [print "Model trained!"])) /\
  (status queued <> "Completed" /\
   always (fun _ => completed) O = Reply completed /\
   let r := watch "proj" 3 (always (fun _ => completed)) queued in
   r = (Returned,
        [get_iteration "proj" "it1"; print "Completed ..."; sleep 5;
         print "Model trained!"]) /\
   polls (snd r) = 1 /\
   (forall s, s <> "Completed" -> ~ In (status_line s) (printed (snd r))) /\
   count_occ string_dec (printed (snd r)) "Model trained!" = 1).
Proof.
  assert (H0 : status queued <> "Completed") by (simpl; discriminate).
  split.
  - split; [reflexivity|].
    exact (proj1 (completed_at_first_look "proj" 3 down completed completed) eq_refl).
  - split; [exact H0|]. split; [reflexivity|].
    exact (proj2 (completed_at_first_look "proj" 2 (always (fun _ => completed))
                    queued completed) H0 eq_refl eq_refl).
Defined.

(** The shape of every run of the loop: some number of complete cycles,
    each on an answer of the service, followed by the failed request when
    the run ends with an exception. *)
Lemma while_loop_shape pid fuel :
  forall service it,
  exists its,
    (forall k i, nth_error its k = Some i -> service k = Reply i) /\
    snd (while_loop pid fuel service it) =
      cycles pid it its ++
      match fst (while_loop pid fuel service it) with
      | Raised _ => [get_iteration pid (id (current it its))]
      | _ => []
      end /\
    (fst (while_loop pid fuel service it) = Returned <->
     status (current it its) = "Completed") /\
    (forall ex, fst (while_loop pid fuel service it) = Raised ex ->
                service (length its) = Raises ex) /\
    (fst (while_loop pid fuel service it) = Pending -> length its = fuel).
Proof.
  induction fuel as [|fuel IH]; intros service it.
  - exists []. destruct (string_dec (status it) "Completed") as [Hc|Hn].
    + rewrite while_loop_exit by assumption. simpl.
      repeat split; try discriminate; auto.
      intros k i Hk. destruct k; discriminate.
    + rewrite while_loop_pending by assumption. simpl.
      repeat split; try discriminate; auto.
      * intros k i Hk. destruct k; discriminate.
      * intros Hc. contradiction.
  - destruct (string_dec (status it) "Completed") as [Hc|Hn].
    + exists []. rewrite while_loop_exit by assumption. simpl.
      repeat split; try discriminate; auto.
      intros k i Hk. destruct k; discriminate.
    + rewrite while_loop_poll by assumption.
      destruct (service O) as [it'|ex] eqn:Hs.
      * destruct (IH (later service) it') as (its & Hans & Htr & Hret & Hex & Hpen).
        exists (it' :: its). simpl fst. simpl snd.
        rewrite current_cons. repeat split.
        -- intros [|k] i Hk; simpl in Hk.
           ++ injection Hk as <-. exact Hs.
           ++ apply (Hans k i Hk).
        -- rewrite Htr. reflexivity.
        -- apply Hret.
        -- apply Hret.
        -- intros ex Hr. apply (Hex ex Hr).
        -- intros Hp. simpl. f_equal. apply Hpen. exact Hp.
      * exists []. simpl. repeat split; try discriminate; auto.
        -- intros k i Hk. destruct k; discriminate.
        -- intros Hc. contradiction.
        -- intros ex' Hr. injection Hr as <-. exact Hs.
Qed.

(** C5: what a run of the watcher writes is exactly one line per completed
    poll cycle, the status received in that cycle followed by " ...", in
    the order of the answers of the service, and then the single line
    "Model trained!" when, and only when, the terminal status was reached;
    nothing else is printed. A request that raised completes no cycle and
    prints nothing. *)
Theorem watch_output pid fuel service it :
  let r := watch pid fuel service it in
  exists its,
    (forall k i, nth_error its k = Some i -> service k = Reply i) /\
    printed (snd r) =
      map (fun i => (status i ++ " ...")%string) its ++
      match fst r with Returned => ["Model trained!"] | _ => [] end /\
    polls (snd r) =
      length its + match fst r with Raised _ => 1 | _ => 0 end /\
    (fst r = Returned <-> status (current it its) = "Completed").
Proof.
  intros r.
  destruct (while_loop_shape pid fuel service it) as (its & Hans & Htr & Hret & _ & _).
  exists its. split; [exact Hans|].
  subst r. unfold watch.
  destruct (while_loop pid fuel service it) as [o tr].
  simpl fst in *. simpl snd in *. subst tr.
  destruct o as [|ex|]; simpl fst; simpl snd;
    rewrite ?printed_app, ?polls_app, ?polls_cycles, ?printed_cycles, ?app_nil_r;
    repeat split; try (apply Hret); try reflexivity; try (unfold polls; simpl; lia).
Qed.

(** C2: the loop stops exactly on the status "Completed". Holding an
    iteration with that status it returns at once, without a request;
    holding any other status it sends a [get_iteration] request as its next
    action. "Failed" and statuses nobody has listed are such other
    statuses: they raise nothing and lead to one more poll. *)
Theorem stops_iff_Completed pid fuel service it :
  (while_loop pid (S fuel) service it = (Returned, []) <-> status it = "Completed") /\
  (hd_error (snd (while_loop pid (S fuel) service it)) = Some (get_iteration pid (id it))
   <-> status it <> "Completed") /\
  (forall iid,
     hd_error (snd (while_loop pid (S fuel) service {| id := iid; status := "Failed" |}))
     = Some (get_iteration pid iid)) /\
  (forall iid s,
     while_loop pid 1 (always (fun _ => {| id := iid; status := s |})) it =
     if terminal (status it) then (Returned, [])
     else (if terminal s then Returned else Pending,
           [get_iteration pid (id it); print (status_line s); sleep 5])).
Proof.
  assert (Hp : forall i, status i <> "Completed" ->
               hd_error (snd (while_loop pid (S fuel) service i))
               = Some (get_iteration pid (id i))).
  { intros i Hi. rewrite while_loop_poll by assumption.
    destruct (service O); reflexivity. }
  repeat split.
  - intros H. destruct (string_dec (status it) "Completed") as [Hc|Hn]; [exact Hc|].
    apply Hp in Hn. rewrite H in Hn. discriminate.
  - intros H. apply while_loop_exit. exact H.
  - intros H Hc. rewrite while_loop_exit in H by assumption. discriminate.
  - apply Hp.
  - intros iid. apply Hp. simpl. discriminate.
  - intros iid s. destruct (terminal (status it)) eqn:Ht.
    + apply while_loop_exit. apply terminal_true. exact Ht.
    + apply terminal_false in Ht.
      rewrite while_loop_poll by assumption.
      change (always (fun _ => {| id := iid; status := s |}) O)
        with (Reply {| id := iid; status := s |}).
      cbv iota beta.
      destruct (terminal s) eqn:Hs.
      * rewrite while_loop_exit; [reflexivity|]. apply terminal_true. exact Hs.
      * rewrite while_loop_pending; [reflexivity|]. apply terminal_false. exact Hs.
Qed.

Lemma cycles_events pid its : forall it, Forall (loop_event pid) (cycles pid it its).
Proof.
  induction its as [|i its IH]; intros it; simpl; repeat constructor. apply IH.
Qed.

Lemma while_loop_events pid fuel service it :
  Forall (loop_event pid) (snd (while_loop pid fuel service it)).
Proof.
  destruct (while_loop_shape pid fuel service it) as (its & _ & Htr & _).
  rewrite Htr. apply Forall_app. split; [apply cycles_events|].
  destruct (fst (while_loop pid fuel service it)); repeat constructor.
Qed.

(** C7: in every run of the loop, whatever the service answers, each
    request made on the client is a [get_iteration] on the project of the
    script: a status query. The loop sends no request that changes the job
    ([train_project], [create_images_from_data]), and the answers it gets
    come from the service alone. *)
Theorem loop_only_queries pid fuel service it :
  Forall (fun e => is_request e = true ->
                   mutates e = false /\ exists iid, e = get_iteration pid iid)
         (snd (while_loop pid fuel service it)).
Proof.
  eapply Forall_impl; [|apply while_loop_events].
  intros e He Hreq. destruct e; simpl in *; try contradiction; try discriminate.
  subst. split; [reflexivity|]. eexists; reflexivity.
Qed.

(** Runs against a service that always answers. *)
Lemma later_always its : later (always its) = always (fun n => its (S n)).
Proof. reflexivity. Qed.

Lemma polls_cycle pid iid line secs tr :
  polls (get_iteration pid iid :: print line :: sleep secs :: tr) = S (polls tr).
Proof. reflexivity. Qed.

Lemma run_pending pid fuel :
  forall its it,
    status it <> "Completed" ->
    (forall k, k < fuel -> status (its k) <> "Completed") ->
    fst (while_loop pid fuel (always its) it) = Pending /\
    polls (snd (while_loop pid fuel (always its) it)) = fuel.
Proof.
  induction fuel as [|fuel IH]; intros its it Hit Hall.
  - rewrite while_loop_pending by assumption. split; reflexivity.
  - rewrite while_loop_poll by assumption.
    change (always its O) with (Reply (its O)). cbv iota beta.
    rewrite later_always.
    destruct (IH (fun n => its (S n)) (its O)) as [Ho Hp].
    + apply Hall. lia.
    + intros k Hk. apply Hall. lia.
    + cbn [fst snd]. split; [exact Ho|].
      rewrite polls_cycle, Hp. reflexivity.
Qed.

Lemma run_returns pid n :
  forall its it fuel,
    status it <> "Completed" ->
    status (its n) = "Completed" ->
    (forall k, k < n -> status (its k) <> "Completed") ->
    fst (while_loop pid (S n + fuel) (always its) it) = Returned /\
    polls (snd (while_loop pid (S n + fuel) (always its) it)) = S n.
Proof.
  induction n as [|n IH]; intros its it fuel Hit Hn Hall.
  - change (1 + fuel) with (S fuel). rewrite while_loop_poll by assumption.
    change (always its O) with (Reply (its O)). cbv iota beta.
    rewrite while_loop_exit by assumption. split; reflexivity.
  - change (S (S n) + fuel) with (S (S n + fuel)).
    rewrite while_loop_poll by assumption.
    change (always its O) with (Reply (its O)). cbv iota beta.
    rewrite later_always.
    destruct (IH (fun k => its (S k)) (its O) fuel) as [Ho Hp].
    + apply Hall. lia.
    + exact Hn.
    + intros k Hk. apply Hall. lia.
    + cbn [fst snd]. split; [exact Ho|].
      rewrite polls_cycle, Hp. reflexivity.
Qed.

Lemma run_stops pid fuel :
  forall its it,
    status it <> "Completed" ->
    fst (while_loop pid fuel (always its) it) <> Pending ->
    exists n, n < fuel /\ status (its n) = "Completed".
Proof.
  induction fuel as [|fuel IH]; intros its it Hit Hne.
  - rewrite while_loop_pending in Hne by assumption. contradiction.
  - rewrite while_loop_poll in Hne by assumption.
    change (always its O) with (Reply (its O)) in Hne. cbv iota beta in Hne.
    simpl fst in Hne.
    destruct (string_dec (status (its O)) "Completed") as [Hc|Hn].
    + exists 0. split; [lia | exact Hc].
    + destruct (IH (fun k => its (S k)) (its O) Hn Hne) as (n & Hlt & Hc).
      exists (S n). split; [lia | exact Hc].
Qed.

(** The first position at which a decidable property holds. *)
Lemma first_position (P : nat -> Prop) (dec : forall n, {P n} + {~ P n}) :
  forall n, P n -> exists m, m <= n /\ P m /\ forall k, k < m -> ~ P k.
Proof.
  induction n as [n IH] using (well_founded_induction lt_wf). intros Hn.
  assert (Hsearch : forall b, b <= n ->
            (exists k, k < b /\ P k) \/ (forall k, k < b -> ~ P k)).
  { induction b as [|b IHb]; intros Hb.
    - right. intros k Hk. lia.
    - destruct IHb as [(k & Hk & Pk)|Hnone]; [lia| |].
      + left. exists k. split; [lia|exact Pk].
      + destruct (dec b) as [Pb|Nb].
        * left. exists b. split; [lia|exact Pb].
        * right. intros k Hk. destruct (Nat.eq_dec k b) as [->|Hne]; [exact Nb|].
          apply Hnone. lia. }
  destruct (Hsearch n (le_n n)) as [(k & Hk & Pk)|Hnone].
  - destruct (IH k Hk Pk) as (m & Hm & Pm & Hfirst).
    exists m. split; [lia|]. split; assumption.
  - exists n. split; [lia|]. split; assumption.
Qed.

(** C6: against a service that always answers, the loop (entered with a
    status other than "Completed") comes to an end if and only if some
    answer has the status "Completed". When the first such answer is at
    position [n], every run with room for [n + 1] iterations returns after
    exactly [n + 1] polls and every shorter run is still polling. When no
    answer ever has that status, the run is never over: for every bound it
    is still pending, having made as many polls as the bound allows. *)
Theorem terminates_iff_Completed pid it its :
  status it <> "Completed" ->
  ((exists fuel, fst (while_loop pid fuel (always its) it) = Returned) <->
   (exists n, status (its n) = "Completed")) /\
  (forall n,
     status (its n) = "Completed" ->
     (forall k, k < n -> status (its k) <> "Completed") ->
     (forall fuel,
        fst (while_loop pid (S n + fuel) (always its) it) = Returned /\
        polls (snd (while_loop pid (S n + fuel) (always its) it)) = S n) /\
     (forall fuel,
        fuel <= n ->
        fst (while_loop pid fuel (always its) it) = Pending /\
        polls (snd (while_loop pid fuel (always its) it)) = fuel)) /\
  ((forall n, status (its n) <> "Completed") ->
   forall fuel,
     fst (while_loop pid fuel (always its) it) = Pending /\
     polls (snd (while_loop pid fuel (always its) it)) = fuel).
Proof.
  intros Hit. split; [split|split].
  - intros (fuel & Hret).
    destruct (run_stops pid fuel its it Hit) as (n & _ & Hc).
    + rewrite Hret. discriminate.
    + exists n. exact Hc.
  - intros (n & Hn).
    destruct (first_position (fun k => status (its k) = "Completed")
                (fun k => string_dec (status (its k)) "Completed") n Hn)
      as (m & _ & Hm & Hfirst).
    exists (S m + 0).
    apply (run_returns pid m its it 0 Hit Hm Hfirst).
  - intros n Hn Hfirst. split.
    + intros fuel. apply run_returns; assumption.
    + intros fuel Hle. apply run_pending; [assumption|].
      intros k Hk. apply Hfirst. lia.
  - intros Hnever fuel. apply run_pending; [assumption|].
    intros k _. apply Hnever.
Qed.

Lemma terminates_iff_Completed_witness :
  status queued <> "Completed" /\
  (forall fuel,
     fst (while_loop "proj" fuel (always (fun _ => {| id := "it1"; status := "Failed" |}))
            queued) = Pending /\
     polls (snd (while_loop "proj" fuel
                   (always (fun _ => {| id := "it1"; status := "Failed" |})) queued))
     = fuel) /\
  fst (while_loop "proj" (3 + 0)
         (always (fun n => if Nat.eqb n 2 then completed else training)) queued)
  = Returned.
Proof.
  assert (H0 : status queued <> "Completed") by (simpl; discriminate).
  split; [exact H0|]. split.
  - apply (proj2 (proj2 (terminates_iff_Completed "proj" queued
                           (fun _ => {| id := "it1"; status := "Failed" |}) H0))).
    intros n. simpl. discriminate.
  - apply (proj1 (proj2 (terminates_iff_Completed "proj" queued
                           (fun n => if Nat.eqb n 2 then completed else training) H0)) 2).
    + reflexivity.
    + intros k Hk. destruct k as [|[|k]]; simpl; try discriminate. lia.
Defined.

(** Positions in the trace of the loop: between two prints there is a
    sleep of five seconds. *)
Lemma sleep_between_prints pid its :
  forall it tl i j l1 l2,
    (forall k l, nth_error tl k <> Some (print l)) ->
    i < j ->
    nth_error (cycles pid it its ++ tl) i = Some (print l1) ->
    nth_error (cycles pid it its ++ tl) j = Some (print l2) ->
    exists k, i < k < j /\ nth_error (cycles pid it its ++ tl) k = Some (sleep 5).
Proof.
  induction its as [|it' its IH]; intros it tl i j l1 l2 Htl Hij Hi Hj.
  - simpl in Hi. exfalso. apply (Htl i l1 Hi).
  - cbn [cycles app] in *.
    destruct i as [|[|[|i]]]; simpl in Hi; try discriminate.
    + destruct j as [|[|[|j]]]; simpl in Hj; try discriminate; try lia.
      exists 2. split; [lia | reflexivity].
    + destruct j as [|[|[|j]]]; try lia.
      simpl in Hj.
      destruct (IH it' tl i j l1 l2 Htl) as (k & Hk & Hs); [lia|assumption|assumption|].
      exists (S (S (S k))). split; [lia | exact Hs].
Qed.

Lemma span_covers dur :
  (forall n, (0 <= dur n)%Z) ->
  forall len i k, i <= k < i + len -> (dur k <= span dur i len)%Z.
Proof.
  intros Hpos.
  assert (Hspan : forall len i, (0 <= span dur i len)%Z).
  { induction len as [|len IHl]; intros i; simpl; [lia|].
    specialize (IHl (S i)). specialize (Hpos i). lia. }
  induction len as [|len IH]; intros i k Hk; [lia|].
  simpl. destruct (Nat.eq_dec k i) as [->|Hne].
  - specialize (Hspan len (S i)). lia.
  - specialize (IH (S i) k). specialize (Hpos i). lia.
Qed.

(** C8: the interval is the constant 5. Every sleep of the loop is a
    [time.sleep(5)], whatever the number of polls made so far (no backoff,
    no jitter); between any two status prints of a run there is such a
    sleep; hence, on every clock on which no action takes negative time
    and a sleep lasts at least as long as asked, at least 5 seconds pass
    from one status print to the next. *)
Theorem five_seconds_between_prints pid fuel service it :
  let tr := snd (while_loop pid fuel service it) in
  Forall (fun secs => secs = 5%Z) (sleeps tr) /\
  (forall i j l1 l2,
     i < j ->
     nth_error tr i = Some (print l1) ->
     nth_error tr j = Some (print l2) ->
     (exists k, i < k < j /\ nth_error tr k = Some (sleep 5)) /\
     (forall dur, clock_of tr dur -> (5 <= elapsed dur i j)%Z)).
Proof.
  intros tr. split.
  - subst tr. pose proof (while_loop_events pid fuel service it) as H.
    induction H as [|e tr' He _ IH]; [constructor|].
    destruct e; simpl in *; try contradiction; try exact IH.
    constructor; assumption.
  - intros i j l1 l2 Hij Hi Hj.
    assert (Hk : exists k, i < k < j /\ nth_error tr k = Some (sleep 5)).
    { subst tr.
      destruct (while_loop_shape pid fuel service it) as (its & _ & Htr & _).
      rewrite Htr in *.
      eapply sleep_between_prints; eauto.
      intros k l. destruct (fst (while_loop pid fuel service it));
        destruct k as [|[|k]]; simpl; discriminate. }
    split; [exact Hk|].
    intros dur [Hpos Hsleep]. destruct Hk as (k & Hk & Hs).
    unfold elapsed.
    pose proof (span_covers dur Hpos (j - i) i k) as Hc.
    pose proof (Hsleep k 5%Z Hs). lia.
Qed.

Lemma sleep_in_sleeps (tr : list event) :
  forall k secs, nth_error tr k = Some (sleep secs) -> In secs (sleeps tr).
Proof.
  induction tr as [|e tr IH]; intros [|k] secs H; simpl in H; try discriminate.
  - injection H as ->. simpl. left. reflexivity.
  - specialize (IH k secs H). destruct e; simpl; auto.
Qed.

Lemma five_seconds_between_prints_witness :
  let tr := snd (while_loop "proj" 4 (script (map Reply scenario) down) queued) in
  (1 < 4 /\
   nth_error tr 1 = Some (print "Training ...") /\
   nth_error tr 4 = Some (print "Training ...") /\
   clock_of tr (fun _ => 7%Z)) /\
  (exists k, 1 < k < 4 /\ nth_error tr k = Some (sleep 5)) /\
  (5 <= elapsed (fun _ => 7%Z) 1 4)%Z.
Proof.
  intros tr.
  pose proof (five_seconds_between_prints "proj" 4 (script (map Reply scenario) down) queued)
    as [Hfive Hgap].
  fold tr in Hfive, Hgap.
  assert (Hclock : clock_of tr (fun _ => 7%Z)).
  { split; [intros; lia|]. intros k secs Hk.
    apply sleep_in_sleeps in Hk. rewrite Forall_forall in Hfive.
    rewrite (Hfive secs Hk). lia. }
  assert (H14 : 1 < 4) by lia.
  destruct (Hgap 1 4 "Training ..." "Training ..." H14 eq_refl eq_refl) as [Hk Hdur].
  split; [repeat split; try reflexivity; try lia; apply Hclock|].
  split; [exact Hk | exact (Hdur _ Hclock)].
Defined.

End TrainClassifierSpec.

(** * Properties of the tagged-image upload *)

Module AddTaggedImagesSpec.
Import AddTaggedImages.

Section Facts.

Variable number : Type.
Variable project_id : string.
Variable files : string -> option (list Byte.byte).
Variable upload : list (ImageFileCreateEntry number) -> exn + ImageCreateSummary.
Variable tags : list Tag.

Lemma known_false (t : tagged_region number) :
  known tags (tag t) = false <-> unmatched tags t.
Proof.
  unfold known. split.
  - intros H tg Hin Heq.
    assert (existsb (fun t0 => name t0 =? tag t) tags = true); [|congruence].
    apply existsb_exists. exists tg. split; [exact Hin|]. apply String.eqb_eq. exact Heq.
  - intros H. destruct (existsb _ tags) eqn:E; [|reflexivity].
    apply existsb_exists in E. destruct E as (tg & Hin & Heq).
    apply String.eqb_eq in Heq. exfalso. apply (H tg Hin Heq).
Qed.

Lemma lookup_known tag_name :
  known tags tag_name = true ->
  exists t, find (fun t => name t =? tag_name) tags = Some t /\
            @lookup number tags tag_name = (inr (id t), []).
Proof.
  unfold known, lookup. intros H.
  destruct (find (fun t => name t =? tag_name) tags) as [t|] eqn:E.
  - exists t. split; reflexivity.
  - apply existsb_exists in H. destruct H as (t & Hin & Heq).
    pose proof (find_none _ _ E t Hin) as Hn. simpl in Hn. congruence.
Qed.

Lemma lookup_unknown tag_name :
  known tags tag_name = false -> @lookup number tags tag_name = (inl StopIteration, []).
Proof.
  unfold known, lookup. intros H.
  destruct (find (fun t => name t =? tag_name) tags) as [t|] eqn:E; [|reflexivity].
  apply find_some in E. destruct E as [Hin Heq].
  assert (existsb (fun t0 => name t0 =? tag_name) tags = true); [|congruence].
  apply existsb_exists. exists t. split; assumption.
Qed.

(** The loop over the tags of one image logs nothing; it yields the
    regions when every tag name is known and raises [StopIteration]
    otherwise. *)
Lemma make_regions_spec (l : list (tagged_region number)) :
  snd (make_regions tags l) = [] /\
  (forallb (fun t => known tags (tag t)) l = true ->
   exists regions, fst (make_regions tags l) = inr regions) /\
  (forallb (fun t => known tags (tag t)) l = false ->
   fst (make_regions tags l) = inl StopIteration).
Proof.
  induction l as [|t l (IHtr & IHok & IHko)].
  - simpl. split; [reflexivity|]. split; [eexists; reflexivity | discriminate].
  - cbn [make_regions forallb].
    destruct (known tags (tag t)) eqn:K.
    + destruct (lookup_known _ K) as (tg & _ & ->). unfold bind at 1.
      rewrite andb_true_l.
      destruct (make_regions tags l) as [[ex|regions] tr] eqn:E;
        simpl in IHtr; subst tr; simpl.
      * split; [reflexivity|]. split; [|exact IHko].
        intros H. destruct (IHok H); discriminate.
      * split; [reflexivity|]. split; [intros _; eexists; reflexivity|].
        intros H. specialize (IHko H). discriminate.
    + rewrite (lookup_unknown _ K). simpl.
      split; [reflexivity|]. split; [discriminate|reflexivity].
Qed.

Lemma read_image_trace folder file :
  Forall (fun e => is_upload e = false) (snd (@read_image number files folder file)).
Proof.
  unfold read_image. simpl.
  destruct (files (path_join folder file)); simpl; repeat constructor.
Qed.

Lemma bind_trace {A B} (m : M number A) (f : A -> M number B) (P : event number -> Prop) :
  Forall P (snd m) -> (forall a, Forall P (snd (f a))) -> Forall P (snd (bind m f)).
Proof.
  intros Hm Hf. destruct m as [[ex|a] tr]; simpl in *; [exact Hm|].
  specialize (Hf a). destruct (f a) as [r tr']. simpl in *.
  apply Forall_app. split; assumption.
Qed.

(** Building the batch never sends the upload request. *)
Lemma make_batch_trace folder (images : list (tagged_image number)) :
  Forall (fun e => is_upload e = false) (snd (make_batch files tags folder images)).
Proof.
  induction images as [|image images IH]; simpl; [constructor|].
  apply bind_trace.
  - rewrite (proj1 (make_regions_spec _)). constructor.
  - intros regions. apply bind_trace; [apply read_image_trace|].
    intros data. apply bind_trace; [exact IH|].
    intros entries. constructor.
Qed.

(** An image with an unknown tag name makes the whole batch fail. *)
Lemma make_batch_fails folder (images : list (tagged_image number)) :
  forallb (all_known tags) images = false ->
  exists ex, fst (make_batch files tags folder images) = inl ex.
Proof.
  induction images as [|image images IH]; simpl; [discriminate|].
  intros H. destruct (make_regions_spec (image_tags image)) as (Htr & Hok & Hko).
  destruct (all_known tags image) eqn:K; unfold all_known in K.
  - destruct (Hok K) as (regions & Hr).
    destruct (make_regions tags (image_tags image)) as [r tr]. simpl in *. subst.
    unfold read_image. simpl.
    destruct (files (path_join folder (filename image))); simpl;
      [|eexists; reflexivity].
    destruct (IH H) as (ex & Hex).
    destruct (make_batch files tags folder images) as [r tr]. simpl in *. subst.
    simpl. eexists; reflexivity.
  - specialize (Hko K).
    destruct (make_regions tags (image_tags image)) as [r tr]. simpl in *. subst.
    simpl. eexists; reflexivity.
Qed.

(** When the images before the first one with an unknown tag name are
    readable, the failure is the [StopIteration] of the lookup. *)
Lemma make_batch_stops folder (pre : list (tagged_image number)) bad post :
  forallb (all_known tags) pre = true ->
  forallb (readable files folder) pre = true ->
  all_known tags bad = false ->
  make_batch files tags folder (pre ++ bad :: post) =
  (inl StopIteration, map (fun image => open_ (path_join folder (filename image))) pre).
Proof.
  intros Hk Hr Hbad. induction pre as [|image pre IH]; simpl in *.
  - destruct (make_regions_spec (image_tags bad)) as (Htr & _ & Hko).
    specialize (Hko Hbad).
    destruct (make_regions tags (image_tags bad)) as [r tr]. simpl in *. subst.
    reflexivity.
  - apply andb_prop in Hk. destruct Hk as [Hk1 Hk2].
    apply andb_prop in Hr. destruct Hr as [Hr1 Hr2].
    destruct (make_regions_spec (image_tags image)) as (Htr & Hok & _).
    destruct (Hok Hk1) as (regions & Hreg).
    destruct (make_regions tags (image_tags image)) as [r tr]. simpl in *. subst.
    unfold read_image, readable in *. simpl.
    destruct (files (path_join folder (filename image))); [|discriminate].
    simpl. rewrite (IH Hk2 Hr2). reflexivity.
Qed.

Lemma some_unknown (images : list (tagged_image number)) image t :
  In image images -> In t (image_tags image) -> unmatched tags t ->
  forallb (all_known tags) images = false.
Proof.
  intros Hi Ht Hu.
  destruct (forallb (all_known tags) images) eqn:E; [|reflexivity].
  rewrite forallb_forall in E. specialize (E image Hi).
  unfold all_known in E. rewrite forallb_forall in E. specialize (E t Ht).
  apply known_false in Hu. congruence.
Qed.

Lemma no_upload_filter (tr : list (event number)) :
  Forall (fun e => is_upload e = false) tr -> filter is_upload tr = [].
Proof.
  induction 1 as [|e tr He _ IH]; [reflexivity|]. simpl. rewrite He. exact IH.
Qed.

(** A failure while the batch is built ends [Upload_Images] there. *)
Lemma Upload_Images_fails folder (images : list (tagged_image number)) ex tr :
  make_batch files tags folder images = (inl ex, tr) ->
  Upload_Images project_id (inr tags) (inr images) files upload folder =
  (inl ex,
   print "Uploading images..." :: get_tags project_id :: open_ "tagged-images.json" :: tr).
Proof.
  intros E. unfold Upload_Images. cbn [bind emit answer app]. rewrite E. reflexivity.
Qed.

(** C10: when a tag name of [tagged-images.json] matches no tag of the
    project, [Upload_Images] does not return normally and its trace holds
    no [create_images_from_files] request: nothing is uploaded, whatever
    the other images are. The exception is the [StopIteration] of the
    lookup as soon as the images listed before the first one with such a
    name could be built (their names are known and their files readable);
    it is raised after only reading those files. The handler of [main]
    then prints the empty message of that exception, again without any
    upload. *)
Theorem unknown_tag_uploads_nothing folder (images : list (tagged_image number)) image t :
  In image images ->
  In t (image_tags image) ->
  unmatched tags t ->
  let r := Upload_Images project_id (inr tags) (inr images) files upload folder in
  (exists ex, fst r = inl ex) /\
  filter is_upload (snd r) = [] /\
  filter is_upload
    (snd (main_try project_id (inr tags) (inr images) files upload)) = [] /\
  (forall pre bad post,
     images = pre ++ bad :: post ->
     forallb (all_known tags) pre = true ->
     forallb (readable files folder) pre = true ->
     all_known tags bad = false ->
     r = (inl StopIteration,
          print "Uploading images..." :: get_tags project_id
            :: open_ "tagged-images.json"
            :: map (fun i => open_ (path_join folder (filename i))) pre)).
Proof.
  intros Hi Ht Hu r.
  pose proof (some_unknown images image t Hi Ht Hu) as Hsome.
  assert (Hno : forall f,
            (exists ex, fst (Upload_Images project_id (inr tags) (inr images) files upload f)
                        = inl ex) /\
            filter is_upload
              (snd (Upload_Images project_id (inr tags) (inr images) files upload f)) = []).
  { intros f.
    destruct (make_batch_fails f images Hsome) as (ex & Hex).
    pose proof (make_batch_trace f images) as Htr.
    destruct (make_batch files tags f images) as [res tr] eqn:E. simpl in Hex. subst res.
    rewrite (Upload_Images_fails f images ex tr E).
    simpl. split; [eexists; reflexivity|].
    apply no_upload_filter. exact Htr. }
  split; [apply Hno|]. split; [apply Hno|]. split.
  - unfold main_try. destruct (Hno "images") as [(ex & Hex) Hf].
    destruct (Upload_Images project_id (inr tags) (inr images) files upload "images")
      as [res tr]. simpl in Hex. subst res. simpl in *.
    rewrite filter_app, Hf. reflexivity.
  - intros pre bad post -> Hk Hr Hbad. subst r.
    apply Upload_Images_fails. apply make_batch_stops; assumption.
Qed.

End Facts.

(** On the small project the run stops at the second image: the file of
    the first one has been read, no request but [get_tags] was sent. *)
Example demo_run :
  Upload_Images "proj" (inr demo_tags) (inr demo_images) demo_files demo_upload "images" =
  (inl StopIteration,
   [print "Uploading images..."; get_tags "proj"; open_ "tagged-images.json";
    open_ "images/image1.jpg"]).
Proof. reflexivity. Qed.

(** With the unknown name taken out, the batch of three is sent. *)
Example demo_run_known :
  filter is_upload
    (snd (Upload_Images "proj" (inr demo_tags)
            (inr (map (fun i => {| filename := filename i;
                                   image_tags := firstn 1 (image_tags i) |})
                    demo_images))
            demo_files demo_upload "images")) =
  [create_images_from_files "proj"
     [ {| entry_name := "image1.jpg"; contents := [];
          regions := [ {| tag_id := "id-apple"; left := 1%Z; top := 2%Z;
                          width := 3%Z; height := 4%Z |} ] |};
       {| entry_name := "image2.jpg"; contents := [];
          regions := [ {| tag_id := "id-banana"; left := 1%Z; top := 2%Z;
                          width := 3%Z; height := 4%Z |} ] |};
       {| entry_name := "image3.jpg"; contents := [];
          regions := [ {| tag_id := "id-banana"; left := 1%Z; top := 2%Z;
                          width := 3%Z; height := 4%Z |} ] |} ]].
Proof. reflexivity. Qed.

Lemma unknown_tag_uploads_nothing_witness :
  (In (nth 1 demo_images (nth 0 demo_images {| filename := ""; image_tags := [] |}))
      demo_images /\
   In (demo_region "pear")
      (image_tags (nth 1 demo_images
                     (nth 0 demo_images {| filename := ""; image_tags := [] |}))) /\
   unmatched demo_tags (demo_region "pear")) /\
  let r := Upload_Images "proj" (inr demo_tags) (inr demo_images) demo_files
             demo_upload "images" in
  (exists ex, fst r = inl ex) /\
  filter is_upload (snd r) = [] /\
  filter is_upload
    (snd (main_try "proj" (inr demo_tags) (inr demo_images) demo_files demo_upload)) = [] /\
  (forall pre bad post,
     demo_images = pre ++ bad :: post ->
     forallb (all_known demo_tags) pre = true ->
     forallb (readable demo_files "images") pre = true ->
     all_known demo_tags bad = false ->
     r = (inl StopIteration,
          print "Uploading images..." :: get_tags "proj"
            :: open_ "tagged-images.json"
            :: map (fun i => open_ (path_join "images" (filename i))) pre)).
Proof.
  assert (H1 : In (nth 1 demo_images
                     (nth 0 demo_images {| filename := ""; image_tags := [] |}))
                  demo_images) by (simpl; auto).
  assert (H2 : In (demo_region "pear")
                  (image_tags (nth 1 demo_images
                     (nth 0 demo_images {| filename := ""; image_tags := [] |}))))
    by (simpl; auto).
  assert (H3 : unmatched demo_tags (demo_region "pear")).
  { intros tg [<-|[<-|[]]]; simpl; discriminate. }
  split; [repeat split; assumption|].
  exact (unknown_tag_uploads_nothing Z "proj" demo_files demo_upload demo_tags "images"
           demo_images _ _ H1 H2 H3).
Defined.

End AddTaggedImagesSpec.

(** * Binary64 arithmetic: multiplying by 100 and comparing with 50 *)

Module Binary64Facts.
Import Binary64.
Local Open Scope Z_scope.

(** A positive number of [d] binary digits lies between [2^(d-1)] and
    [2^d]. *)
Lemma digits2_bounds (m : positive) :
  2 ^ (Zpos (digits2_pos m) - 1) <= Zpos m < 2 ^ Zpos (digits2_pos m).
Proof.
  induction m as [m IH|m IH|]; cbn [digits2_pos].
  - rewrite Pos2Z.inj_succ.
    replace (Z.succ (Zpos (digits2_pos m)) - 1) with (Z.succ (Zpos (digits2_pos m) - 1)) by lia.
    rewrite !Z.pow_succ_r by lia. lia.
  - rewrite Pos2Z.inj_succ.
    replace (Z.succ (Zpos (digits2_pos m)) - 1) with (Z.succ (Zpos (digits2_pos m) - 1)) by lia.
    rewrite !Z.pow_succ_r by lia. lia.
  - simpl. lia.
Qed.

(** The iteration of [SpecFloat] is the iteration on [nat]. *)
Lemma iter_pos_nat {A} (f : A -> A) (n : positive) :
  forall x, iter_pos f n x = Nat.iter (Pos.to_nat n) f x.
Proof.
  induction n as [n IH|n IH|]; intros x; cbn [iter_pos].
  - rewrite !IH, Pos2Nat.inj_xI. 
    replace (S (2 * Pos.to_nat n))%nat with (Pos.to_nat n + (Pos.to_nat n + 1))%nat by lia.
    rewrite !Nat.iter_add. simpl. reflexivity.
  - rewrite !IH, Pos2Nat.inj_xO.
    replace (2 * Pos.to_nat n)%nat with (Pos.to_nat n + Pos.to_nat n)%nat by lia.
    rewrite Nat.iter_add. reflexivity.
  - reflexivity.
Qed.

(** One step of the right shift halves the mantissa and remembers the bit
    that fell off. *)
Lemma shr_1_spec (r : shr_record) :
  0 <= shr_m r ->
  shr_m (shr_1 r) = shr_m r / 2 /\ shr_r (shr_1 r) = Z.odd (shr_m r).
Proof.
  destruct r as [m r s]. simpl. intros Hm.
  destruct m as [|p|p]; [split; reflexivity| |lia].
  destruct p as [p|p|]; simpl; split; try reflexivity.
  - rewrite Pos2Z.inj_xI. apply Z.div_unique with 1; lia.
  - rewrite Pos2Z.inj_xO. apply Z.div_unique with 0; lia.
Qed.

(** After [k] steps the mantissa is divided by [2^k]. *)
Lemma shr_iter_m (k : nat) (r : shr_record) :
  0 <= shr_m r ->
  shr_m (Nat.iter k shr_1 r) = shr_m r / 2 ^ Z.of_nat k.
Proof.
  intros Hm. induction k as [|k IH].
  - simpl. rewrite Z.div_1_r. reflexivity.
  - rewrite Nat.iter_succ.
    assert (0 <= shr_m (Nat.iter k shr_1 r)).
    { rewrite IH. apply Z.div_pos; [lia|]. apply Z.pow_pos_nonneg; lia. }
    rewrite (proj1 (shr_1_spec _ H)), IH.
    rewrite Nat2Z.inj_succ, Z.pow_succ_r by lia.
    rewrite Z.div_div by (try apply Z.pow_pos_nonneg; lia). f_equal. lia.
Qed.

(** Shifting right by a positive amount. *)
Lemma shr_pos (M : Z) (e : Z) (n : positive) :
  0 <= M ->
  exists mrs,
    shr (Build_shr_record M false false) e (Zpos n) = (mrs, e + Zpos n) /\
    shr_m mrs = M / 2 ^ Zpos n /\
    2 * shr_m mrs + Z.b2z (shr_r mrs) = M / 2 ^ (Zpos n - 1).
Proof.
  intros HM. unfold shr. eexists. split; [reflexivity|].
  rewrite iter_pos_nat.
  destruct (Pos2Nat.is_succ n) as (k & Hk). rewrite Hk, Nat.iter_succ.
  assert (Hn : Zpos n - 1 = Z.of_nat k) by lia.
  assert (Hq : shr_m (Nat.iter k shr_1 (Build_shr_record M false false)) = M / 2 ^ Z.of_nat k).
  { apply shr_iter_m. simpl. exact HM. }
  assert (H0 : 0 <= shr_m (Nat.iter k shr_1 (Build_shr_record M false false))).
  { rewrite Hq. apply Z.div_pos; [lia|]. apply Z.pow_pos_nonneg; lia. }
  destruct (shr_1_spec _ H0) as [Hm Hr].
  rewrite Hm, Hr, Hq, Hn.
  set (q := M / 2 ^ Z.of_nat k).
  split.
  - replace (Zpos n) with (Z.succ (Z.of_nat k)) by lia.
    rewrite Z.pow_succ_r by lia. unfold q.
    rewrite Z.div_div by (try apply Z.pow_pos_nonneg; lia). f_equal. lia.
  - rewrite (Z.div_mod q 2) at 3 by lia. rewrite Zodd_mod.
    destruct (Z.eqb_spec (q mod 2) 1) as [->|Hne]; simpl; [lia|].
    pose proof (Z.mod_pos_bound q 2). lia.
Qed.

(** The exponent function of binary64. *)
Lemma fexp_eq z : fexp prec emax z = Z.max (z - 53) (-1074).
Proof. reflexivity. Qed.

(** Rounding to nearest adds at most the round bit. *)
Lemma round_nearest_even_bounds (mrs : shr_record) :
  let mr := round_nearest_even (shr_m mrs) (loc_of_shr_record mrs) in
  shr_m mrs <= mr /\ mr <= shr_m mrs + Z.b2z (shr_r mrs).
Proof.
  destruct mrs as [m [|] [|]]; simpl; try lia.
  destruct (Z.even m); lia.
Qed.

Lemma digits_le_53 (p : positive) : Zpos p < 2 ^ 53 -> Zpos (digits2_pos p) <= 53.
Proof.
  intros H. pose proof (digits2_bounds p) as [Hlo _].
  destruct (Z_le_gt_dec (Zpos (digits2_pos p)) 53) as [|Hgt]; [assumption|].
  assert (2 ^ 53 <= 2 ^ (Zpos (digits2_pos p) - 1)) by (apply Z.pow_le_mono_r; lia).
  lia.
Qed.

(** The result of rounding an exact product [P * 2^E] that has to be
    shifted right by [n > 0] bits: the mantissa [mr] is the shifted one or
    its successor, never more than half a unit above the exact quotient,
    and a mantissa that rounds up to [2^53] moves to the next exponent. *)
Lemma round_result (s : bool) (P : positive) (E : Z) :
  let n := fexp prec emax (Zpos (digits2_pos P) + E) - E in
  0 < n ->
  exists mr,
    Zpos P / 2 ^ n <= mr /\
    2 * mr <= Zpos P / 2 ^ (n - 1) + 1 /\
    binary_round_aux prec emax s (Zpos P) E loc_Exact =
      if mr =? 0 then S754_zero s
      else if mr <? 2 ^ 53 then
             (if E + n <=? 971 then S754_finite s (Z.to_pos mr) (E + n)
              else S754_infinity s)
           else
             (if E + n + 1 <=? 971 then S754_finite s (Z.to_pos (2 ^ 52)) (E + n + 1)
              else S754_infinity s).
Proof.
  intros n Hn.
  assert (He' : -1074 <= E + n) by (unfold n; rewrite fexp_eq; lia).
  assert (Hnd : Zpos (digits2_pos P) - 53 <= n) by (unfold n; rewrite fexp_eq; lia).
  unfold binary_round_aux, shr_fexp. cbn [Zdigits2 shr_record_of_loc]. fold n.
  destruct n as [|np|np] eqn:En; try lia.
  destruct (shr_pos (Zpos P) E np) as (mrs & Hshr & Hm & Hq); [lia|].
  rewrite Hshr.
  pose proof (round_nearest_even_bounds mrs) as [Hlo Hhi]. cbv zeta in Hlo, Hhi.
  set (mr := round_nearest_even (shr_m mrs) (loc_of_shr_record mrs)) in *.
  assert (Hsmall : shr_m mrs < 2 ^ 53).
  { rewrite Hm. apply Z.div_lt_upper_bound; [apply Z.pow_pos_nonneg; lia|].
    rewrite <- Z.pow_add_r by lia.
    pose proof (digits2_bounds P) as [_ Hup].
    eapply Z.lt_le_trans; [exact Hup|]. apply Z.pow_le_mono_r; lia. }
  assert (Hpos : 0 <= shr_m mrs).
  { rewrite Hm. apply Z.div_pos; [lia|]. apply Z.pow_pos_nonneg; lia. }
  assert (Hb : Z.b2z (shr_r mrs) <= 1) by (destruct (shr_r mrs); simpl; lia).
  exists mr. split; [rewrite <- Hm; exact Hlo|]. split; [lia|].
  set (e' := E + Zpos np) in *.
  destruct (Z.eqb_spec mr 0) as [H0|H0].
  - rewrite H0. cbn [Zdigits2]. rewrite fexp_eq.
    replace (Z.max (0 + e' - 53) (-1074) - e') with (- (e' - Z.max (e' - 53) (-1074))) by lia.
    destruct (e' - Z.max (e' - 53) (-1074)) eqn:Ed; try lia; reflexivity.
  - destruct (Z.ltb_spec mr (2 ^ 53)) as [Hlt|Hge].
    + destruct mr as [|pm|pm] eqn:Emr; try lia.
      cbn [Zdigits2]. rewrite fexp_eq.
      pose proof (digits_le_53 pm Hlt) as Hd.
      destruct (Z.max (Zpos (digits2_pos pm) + e' - 53) (-1074) - e') eqn:Ed; try lia;
        cbn [shr shr_m]; reflexivity.
    + assert (Emr : mr = 2 ^ 53) by lia.
      rewrite Emr. change (Zdigits2 (2 ^ 53)) with 54. rewrite fexp_eq.
      replace (Z.max (54 + e' - 53) (-1074) - e') with 1 by lia.
      cbn [shr iter_pos]. 
      replace (e' + 1 <=? emax - prec) with (e' + 1 <=? 971) by reflexivity.
      reflexivity.
Qed.

(** The order on positive finite numbers in canonical form: by exponent,
    then by mantissa. *)
Lemma SFltb_finite (m1 : positive) (e1 : Z) (m2 : positive) (e2 : Z) :
  SFltb (S754_finite false m1 e1) (S754_finite false m2 e2) =
  (e1 <? e2) || ((e1 =? e2) && (Zpos m1 <? Zpos m2)).
Proof.
  unfold SFltb, SFcompare.
  change (Pos.compare_cont Eq m1 m2) with (Pos.compare m1 m2).
  destruct (Z.compare_spec e1 e2) as [He|He|He].
  - subst e2. rewrite Z.ltb_irrefl, Z.eqb_refl. unfold Z.ltb. simpl.
    destruct (m1 ?= m2)%positive; reflexivity.
  - apply Z.ltb_lt in He. rewrite He. reflexivity.
  - assert ((e1 <? e2) = false) as -> by (apply Z.ltb_ge; lia).
    assert ((e1 =? e2) = false) as -> by (apply Z.eqb_neq; lia). reflexivity.
Qed.

Lemma digits_gt (p : positive) (k : Z) :
  0 <= k -> 2 ^ k <= Zpos p -> k < Zpos (digits2_pos p).
Proof.
  intros Hk H. pose proof (digits2_bounds p) as [_ Hup].
  apply (Z.pow_lt_mono_r_iff 2); lia.
Qed.

Lemma digits_le (p : positive) (k : Z) :
  0 <= k -> Zpos p < 2 ^ k -> Zpos (digits2_pos p) <= k.
Proof.
  intros Hk H. pose proof (digits2_bounds p) as [Hlo _].
  destruct (Z_le_gt_dec (Zpos (digits2_pos p)) k) as [|Hgt]; [assumption|].
  assert (2 ^ k <= 2 ^ (Zpos (digits2_pos p) - 1)) by (apply Z.pow_le_mono_r; lia).
  lia.
Qed.


Lemma Prim2SF_100 : Prim2SF 100%float = hundred.
Proof. reflexivity. Qed.

Lemma Prim2SF_50 : Prim2SF 50%float = fifty.
Proof. reflexivity. Qed.

Lemma Prim2SF_half : Prim2SF 0.5%float = half.
Proof. reflexivity. Qed.

(** A product with the sign bit set is not above fifty, however it is
    rounded. *)
Lemma negative_product (P : positive) (E : Z) :
  SFltb fifty (binary_round_aux prec emax true (Zpos P) E loc_Exact) = false.
Proof.
  unfold binary_round_aux.
  destruct (shr_fexp prec emax (Zpos P) E loc_Exact) as [mrs' e'].
  destruct (shr_fexp prec emax _ e' loc_Exact) as [mrs'' e''].
  destruct (shr_m mrs''); [reflexivity| |reflexivity].
  destruct (e'' <=? emax - prec); reflexivity.
Qed.

(** The powers of two of the format, as numerals. *)
Ltac pow_consts :=
  change (2 ^ 52) with 4503599627370496 in *;
  change (2 ^ 53) with 9007199254740992 in *.

(** The leaves of the case analysis: a comparison of [fifty] with the
    rounded product, once the mantissa and the exponent are bounded. *)
Ltac split_tests :=
  repeat match goal with
    | |- context [Z.eqb ?a ?b] => destruct (Z.eqb_spec a b)
    | |- context [Z.ltb ?a ?b] => destruct (Z.ltb_spec a b)
    | |- context [Z.leb ?a ?b] => destruct (Z.leb_spec a b)
    end.

Ltac leaf :=
  pow_consts;
  repeat match goal with
    | |- context [if Z.eqb ?a ?b then _ else _] => destruct (Z.eqb_spec a b)
    | |- context [if Z.ltb ?a ?b then _ else _] => destruct (Z.ltb_spec a b)
    | |- context [if Z.leb ?a ?b then _ else _] => destruct (Z.leb_spec a b)
    end;
  unfold fifty; rewrite ?SFltb_finite; rewrite ?Z2Pos.id by lia;
  split_tests; try reflexivity; try (exfalso; Z.div_mod_to_equations; lia).

(** The product of a valid positive number other than one half by one
    hundred, rounded, is above fifty exactly when the number is above one
    half. The cases follow the exponent [e] of the number: that of one half
    ([-53]), below, above. *)
Lemma positive_product_aux (m : positive) (e : Z) :
  (e = -53 -> Zpos m <> 2 ^ 52) ->
  bounded prec emax m e = true ->
  SFltb fifty
    (binary_round_aux prec emax false (Zpos (m * 7036874417766400)) (e + -46) loc_Exact)
  = SFltb half (S754_finite false m e).
Proof.
  intros Hne Hb. unfold bounded, canonical_mantissa in Hb.
  apply andb_prop in Hb. destruct Hb as [Hc He].
  apply Z.eqb_eq in Hc. rewrite fexp_eq in Hc.
  apply Z.leb_le in He. change (emax - prec) with 971 in He.
  pose proof (digits2_bounds m) as [Hmlo Hmhi].
  set (dm := Zpos (digits2_pos m)) in *.
  assert (Hdm : dm <= 53) by lia.
  assert (Hm53 : Zpos m < 2 ^ 53).
  { eapply Z.lt_le_trans; [exact Hmhi|]. apply Z.pow_le_mono_r; lia. }
  assert (Hnorm : -1074 < e -> 2 ^ 52 <= Zpos m).
  { intros H. replace 52 with (dm - 1) by lia. exact Hmlo. }
  assert (Hsub : Zpos m = 1 -> e = -1074).
  { intros H. assert (dm <= 1); [|lia].
    apply digits_le; [lia|]. rewrite H. reflexivity. }
  set (P := (m * 7036874417766400)%positive).
  assert (HP : Zpos P = Zpos m * 7036874417766400) by reflexivity.
  pose proof (digits2_bounds P) as [HPlo HPhi].
  assert (Hd53 : 52 < Zpos (digits2_pos P)).
  { apply digits_gt; [lia|]. pow_consts. lia. }
  assert (Hd54 : 2 <= Zpos m -> 53 < Zpos (digits2_pos P)).
  { intros H. apply digits_gt; [lia|]. pow_consts. lia. }
  assert (Hd105 : 2 ^ 52 <= Zpos m -> 104 < Zpos (digits2_pos P)).
  { intros H. apply digits_gt; [lia|]. pow_consts.
    change (2 ^ 104) with 20282409603651670423947251286016. lia. }
  assert (Hd106 : Zpos (digits2_pos P) <= 106).
  { apply digits_le; [lia|]. pow_consts.
    change (2 ^ 106) with 81129638414606681695789005144064. lia. }
  remember (Zpos (digits2_pos P)) as d eqn:Ed.
  assert (Hn : 0 < fexp prec emax (d + (e + -46)) - (e + -46)).
  { rewrite fexp_eq. destruct (Z.eq_dec (Zpos m) 1) as [H1|H1].
    - specialize (Hsub H1). lia.
    - assert (2 <= Zpos m) by lia. specialize (Hd54 H). lia. }
  rewrite Ed in Hn.
  destruct (round_result false P (e + -46) Hn) as (mr & Hlo & Hhi & ->).
  rewrite <- Ed in *. clear Ed. rewrite fexp_eq in *.
  assert (Hmr0 : 0 <= mr).
  { eapply Z.le_trans; [|exact Hlo]. apply Z.div_pos; [lia|].
    apply Z.pow_pos_nonneg; lia. }
  unfold half. rewrite SFltb_finite.
  remember (Z.max (d + (e + -46) - 53) (-1074) - (e + -46)) as n eqn:En.
  clearbody P. clear Hmlo Hmhi. clearbody dm.
  destruct (Z.compare_spec e (-53)) as [He53|Hlt|Hgt].
  - (* the exponent of one half, a mantissa above its mantissa *)
    subst e. specialize (Hne eq_refl).
    assert (Hm52 : 2 ^ 52 <= Zpos m) by (apply Hnorm; lia).
    specialize (Hd105 Hm52).
    assert (Hd : d = 105 \/ d = 106) by lia.
    destruct Hd as [Hd|Hd]; subst d.
    + assert (n = 52) by lia. clear En. subst n.
      pow_consts. change (2 ^ (52 - 1)) with 2251799813685248 in *.
      leaf.
    + assert (n = 53) by lia. clear En. subst n.
      pow_consts. leaf.
  - (* below one half *)
    destruct (Z.eq_dec e (-54)) as [He54|He54];
      [destruct (Z.eq_dec d 106) as [Hd|Hd]|].
    + subst e d. assert (n = 53) by lia. clear En. subst n.
      pow_consts. change (2 ^ (53 - 1)) with 4503599627370496 in *.
      leaf.
    + assert (He' : e + -46 + n <= -48) by lia.
      clear Hlo Hhi. leaf.
    + assert (He' : e + -46 + n <= -48) by lia.
      clear Hlo Hhi. leaf.
  - (* one or more *)
    assert (Hm52 : 2 ^ 52 <= Zpos m) by (apply Hnorm; lia).
    specialize (Hd105 Hm52).
    assert (Hnd : n = d - 53) by lia.
    assert (He' : -46 <= e + -46 + n) by lia.
    assert (Hmr : 2 ^ 52 <= mr).
    { eapply Z.le_trans; [|exact Hlo].
      apply Z.div_le_lower_bound; [apply Z.pow_pos_nonneg; lia|].
      rewrite <- Z.pow_add_r by lia.
      replace (n + 52) with (d - 1) by lia. exact HPlo. }
    clear Hlo Hhi. leaf.
Qed.

(** The same with one half itself, whose product is fifty exactly. *)
Lemma positive_product (m : positive) (e : Z) :
  bounded prec emax m e = true ->
  SFltb fifty
    (binary_round_aux prec emax false (Zpos (m * 7036874417766400)) (e + -46) loc_Exact)
  = SFltb half (S754_finite false m e).
Proof.
  intros Hb.
  destruct (Z.eq_dec e (-53)) as [->|He];
    [destruct (Pos.eq_dec m 4503599627370496) as [->|Hm]|].
  - vm_compute. reflexivity.
  - apply positive_product_aux; [|exact Hb]. intros _ H. apply Hm.
    apply Pos2Z.inj. exact H.
  - apply positive_product_aux; [|exact Hb]. intros H. contradiction.
Qed.

(** Multiplying by one hundred and comparing with fifty is comparing with
    one half. *)
Lemma times_100_above_50 (x : spec_float) :
  valid_binary x = true ->
  SFltb fifty (SF64mul x hundred) = SFltb half x.
Proof.
  intros Hv. destruct x as [s|s| |s m e].
  - destruct s; reflexivity.
  - destruct s; reflexivity.
  - reflexivity.
  - destruct s.
    + unfold SF64mul, SFmul, hundred. cbn [xorb].
      rewrite negative_product. reflexivity.
    + apply (positive_product m e Hv).
Qed.

(** On Python floats: [p*100 > 50] is [p > 0.5]. *)
Theorem above_half_iff (p : float) :
  (50 <? p * 100)%float = (0.5 <? p)%float.
Proof.
  rewrite !ltb_spec, mul_spec, Prim2SF_100, Prim2SF_50, Prim2SF_half.
  apply times_100_above_50. apply Prim2SF_valid.
Qed.

End Binary64Facts.

(** * Properties of the prediction filters *)

Module PredictionSpec.
Import Binary64 Binary64Facts.

(** What "above one half" means on the representation of a float: a
    positive infinity, or a positive finite number whose exponent is above
    that of one half, or equal to it with a larger mantissa. *)
Lemma above_half_value (x : float) :
  TestDetector.above_half x = true <->
  match Prim2SF x with
  | S754_infinity false => True
  | S754_finite false m e => (-53 < e \/ (e = -53 /\ 2 ^ 52 < Zpos m))%Z
  | _ => False
  end.
Proof.
  unfold TestDetector.above_half. rewrite ltb_spec, Prim2SF_half.
  destruct (Prim2SF x) as [s|s| |s m e].
  - destruct s; simpl; split; [discriminate|contradiction|discriminate|contradiction].
  - destruct s; simpl; split; [discriminate|contradiction|trivial|reflexivity].
  - simpl. split; [discriminate|contradiction].
  - destruct s.
    + simpl. split; [discriminate|contradiction].
    + unfold half. rewrite SFltb_finite.
      change (2 ^ 52)%Z with 4503599627370496%Z.
      destruct (Z.ltb_spec (-53) e), (Z.eqb_spec (-53) e),
        (Z.ltb_spec 4503599627370496 (Zpos m)); simpl; split;
        try discriminate; try reflexivity; lia.
Qed.

Lemma classifier_filter format_percent image predictions :
  TestClassifier.report format_percent image predictions =
  map (fun p => TestClassifier.print
                  (print_args [image; TestClassifier.result_text format_percent p]))
      (filter (fun p => (0.5 <? TestClassifier.probability p)%float) predictions).
Proof.
  induction predictions as [|p l IH]; [reflexivity|].
  simpl. destruct (0.5 <? TestClassifier.probability p)%float; simpl; rewrite IH; reflexivity.
Qed.

Lemma detector_filter predictions :
  TestDetector.list_objects predictions =
  map (fun p => TestDetector.print (TestDetector.tag_name p))
      (filter (fun p => (0.5 <? TestDetector.probability p)%float) predictions).
Proof.
  induction predictions as [|p l IH]; [reflexivity|].
  cbn [TestDetector.list_objects filter]. rewrite above_half_iff.
  destruct (0.5 <? TestDetector.probability p)%float; simpl; rewrite IH; reflexivity.
Qed.

Lemma boxes_filter float_of_int int_of_float format_2f w h detected_objects :
  TestDetector.draw_boxes float_of_int int_of_float format_2f w h detected_objects =
  flat_map
    (fun p =>
       [ TestDetector.draw_line (TestDetector.points float_of_int w h p)
           TestDetector.color (TestDetector.lineWidth float_of_int int_of_float w);
         TestDetector.annotate (TestDetector.label_text format_2f p)
           (TestDetector.left_px float_of_int w p, TestDetector.top_px float_of_int h p)
           TestDetector.color ])
    (filter (fun p => (0.5 <? TestDetector.probability p)%float) detected_objects).
Proof.
  induction detected_objects as [|p l IH]; [reflexivity|].
  cbn [TestDetector.draw_boxes filter]. rewrite above_half_iff.
  destruct (0.5 <? TestDetector.probability p)%float; cbn [flat_map app]; rewrite IH;
    reflexivity.
Qed.

(** C9: the three loops over the predictions keep exactly the predictions
    whose probability is strictly above 0.5, in their order. The classifier
    prints one line for each of them and nothing else; the detector prints
    the tag name of each of them and nothing else, and
    [save_tagged_images] draws one box and one label for each of them and
    none for the others. The detector tests [probability*100 > 50], which
    on binary64 numbers is the same test. A probability of exactly 0.5
    gives no line, no tag name and no box. *)
Theorem only_above_half
  format_percent float_of_int int_of_float format_2f w h image
  (predictions : list TestClassifier.Prediction)
  (detected_objects : list TestDetector.Prediction) :
  TestClassifier.report format_percent image predictions =
    map (fun p => TestClassifier.print
                    (print_args [image; TestClassifier.result_text format_percent p]))
        (filter (fun p => (0.5 <? TestClassifier.probability p)%float) predictions) /\
  TestDetector.list_objects detected_objects =
    map (fun p => TestDetector.print (TestDetector.tag_name p))
        (filter (fun p => (0.5 <? TestDetector.probability p)%float) detected_objects) /\
  TestDetector.draw_boxes float_of_int int_of_float format_2f w h detected_objects =
    flat_map
      (fun p =>
         [ TestDetector.draw_line (TestDetector.points float_of_int w h p)
             TestDetector.color (TestDetector.lineWidth float_of_int int_of_float w);
           TestDetector.annotate (TestDetector.label_text format_2f p)
             (TestDetector.left_px float_of_int w p, TestDetector.top_px float_of_int h p)
             TestDetector.color ])
      (filter (fun p => (0.5 <? TestDetector.probability p)%float) detected_objects) /\
  (forall d : TestDetector.Prediction,
     TestDetector.confident d = (0.5 <? TestDetector.probability d)%float) /\
  (forall tag_name box,
     TestClassifier.report format_percent image
       [ {| TestClassifier.tag_name := tag_name;
            TestClassifier.probability := 0.5%float |} ] = [] /\
     TestDetector.list_objects
       [ {| TestDetector.tag_name := tag_name; TestDetector.probability := 0.5%float;
            TestDetector.bounding_box := box |} ] = [] /\
     TestDetector.draw_boxes float_of_int int_of_float format_2f w h
       [ {| TestDetector.tag_name := tag_name; TestDetector.probability := 0.5%float;
            TestDetector.bounding_box := box |} ] = []).
Proof.
  split; [apply classifier_filter|].
  split; [apply detector_filter|].
  split; [apply boxes_filter|].
  split.
  - intros d. unfold TestDetector.confident. apply above_half_iff.
  - intros tag_name box. repeat split; reflexivity.
Qed.

(** A probability one unit in the last place above one half passes both
    tests, one unit below fails both. *)
Example just_above_half :
  (0.5 <? 0x1.0000000000001p-1)%float = true /\
  (50 <? 0x1.0000000000001p-1 * 100)%float = true /\
  (0.5 <? 0x1.fffffffffffffp-2)%float = false /\
  (50 <? 0x1.fffffffffffffp-2 * 100)%float = false.
Proof. repeat split; reflexivity. Qed.

End PredictionSpec.

(** * More on the training script: the trace of the loop, [Upload_Images]
      and [main] *)

Module TrainClassifierMainSpec.
Import TrainClassifier TrainClassifierSpec.

Lemma firstn_snoc_last (its : list Iteration) :
  forall it, firstn (length its) (it :: its) ++ [current it its] = it :: its.
Proof.
  induction its as [|i its IH]; intros it; [reflexivity|].
  rewrite current_cons. cbn [length firstn app]. rewrite IH. reflexivity.
Qed.

Lemma request_ids_app a b :
  TrainClassifierMain.request_ids (a ++ b) =
  TrainClassifierMain.request_ids a ++ TrainClassifierMain.request_ids b.
Proof.
  induction a as [|e a IH]; [reflexivity|].
  destruct e; simpl; rewrite IH; reflexivity.
Qed.

Lemma request_ids_cycles pid its :
  forall it,
    TrainClassifierMain.request_ids (cycles pid it its) =
    map id (firstn (length its) (it :: its)).
Proof.
  induction its as [|i its IH]; intros it; [reflexivity|].
  cbn [cycles TrainClassifierMain.request_ids length]. rewrite IH. reflexivity.
Qed.

(** X1: the loop asks for the iteration it was last given: its first request
    carries the id of the iteration it starts with, and every later one the
    id found in the answer to the request before. *)
Theorem requests_carry_latest_id pid fuel service it :
  forall k iid,
    nth_error (TrainClassifierMain.request_ids (snd (while_loop pid fuel service it))) k
    = Some iid ->
    match k with
    | O => iid = id it
    | S k' => exists i, service k' = Reply i /\ iid = id i
    end.
Proof.
  destruct (while_loop_shape pid fuel service it) as (its & Hans & Htr & _).
  assert (Hids : exists n,
             TrainClassifierMain.request_ids (snd (while_loop pid fuel service it))
             = map id (firstn n (it :: its))).
  { rewrite Htr, request_ids_app, request_ids_cycles.
    destruct (fst (while_loop pid fuel service it)).
    - exists (length its). apply app_nil_r.
    - exists (S (length its)). simpl TrainClassifierMain.request_ids.
      change [id (current it its)] with (map id [current it its]).
      rewrite <- map_app, firstn_snoc_last.
      rewrite firstn_all2 by (simpl; lia). reflexivity.
    - exists (length its). apply app_nil_r. }
  destruct Hids as (n & Hids). rewrite Hids.
  intros k iid Hk. rewrite nth_error_map in Hk.
  destruct (nth_error (firstn n (it :: its)) k) as [i|] eqn:E; [|discriminate].
  injection Hk as <-.
  assert (Hi : nth_error (it :: its) k = Some i).
  { destruct (Nat.lt_ge_cases k n) as [Hlt|Hge].
    - rewrite nth_error_firstn in E.
      destruct (k <? n)%nat eqn:Ek; [exact E|]. apply Nat.ltb_ge in Ek. lia.
    - assert (nth_error (firstn n (it :: its)) k = None); [|congruence].
      apply nth_error_None. rewrite length_firstn. lia. }
  destruct k as [|k']; simpl in Hi.
  - injection Hi as <-. reflexivity.
  - exists i. split; [apply (Hans k' i Hi) | reflexivity].
Qed.

Lemma requests_carry_latest_id_witness :
  nth_error (TrainClassifierMain.request_ids
               (snd (while_loop "proj" 9 (script (map Reply scenario) down) queued))) 1
  = Some "it1" /\
  exists i, script (map Reply scenario) down 0 = Reply i /\ "it1" = id i.
Proof.
  assert (H : nth_error (TrainClassifierMain.request_ids
                           (snd (while_loop "proj" 9 (script (map Reply scenario) down)
                                   queued))) 1 = Some "it1") by reflexivity.
  split; [exact H|].
  exact (requests_carry_latest_id "proj" 9 (script (map Reply scenario) down) queued
           1 "it1" H).
Defined.

(** X2: the loop sleeps five seconds after each status line and at no other
    time: in every run the sleeps are as many as the lines printed, each of
    5, and the requests are as many again, plus the one that raised when
    the run ends with an exception. *)
Theorem one_sleep_per_status_line pid fuel service it :
  let r := while_loop pid fuel service it in
  sleeps (snd r) = repeat 5%Z (length (printed (snd r))) /\
  polls (snd r) =
    length (printed (snd r)) + match fst r with Raised _ => 1 | _ => 0 end.
Proof.
  intros r. subst r.
  destruct (while_loop_shape pid fuel service it) as (its & _ & Htr & _).
  rewrite Htr, sleeps_app, printed_app, polls_app,
    sleeps_cycles, printed_cycles, polls_cycles.
  destruct (fst (while_loop pid fuel service it)); simpl;
    rewrite ?app_nil_r, ?length_app, ?length_map; simpl; rewrite ?Nat.add_0_r;
    split; reflexivity.
Qed.

(** X3: once the loop has had to poll, it does not return the moment it
    receives "Completed": it prints that status, sleeps its five seconds,
    and only then leaves the loop and prints the completion line. *)
Theorem watch_sleeps_after_Completed pid fuel service it :
  status it <> "Completed" ->
  fst (watch pid fuel service it) = Returned ->
  exists pre iid,
    snd (watch pid fuel service it) =
    pre ++ [get_iteration pid iid; print "Completed ..."; sleep 5;
            print "Model trained!"].
Proof.
  intros Hit Hret.
  destruct (while_loop_shape pid fuel service it) as (its & _ & Htr & Hdone & _).
  unfold watch in *.
  destruct (while_loop pid fuel service it) as [o tr]. simpl fst in *. simpl snd in *.
  destruct o; simpl in Hret; try discriminate.
  pose proof (proj1 Hdone eq_refl) as Hc.
  destruct (exists_last (l := its)) as (its' & final & ->).
  { intros ->. apply Hit. exact Hc. }
  unfold current in Hc. rewrite last_last in Hc.
  simpl snd. rewrite Htr, app_nil_r, cycles_snoc, Hc.
  exists (cycles pid it its'), (id (current it its')).
  rewrite <- app_assoc. reflexivity.
Qed.

Lemma watch_sleeps_after_Completed_witness :
  (status queued <> "Completed" /\
   fst (watch "proj" 9 (script (map Reply scenario) down) queued) = Returned) /\
  exists pre iid,
    snd (watch "proj" 9 (script (map Reply scenario) down) queued) =
    pre ++ [get_iteration "proj" iid; print "Completed ..."; sleep 5;
            print "Model trained!"].
Proof.
  assert (H0 : status queued <> "Completed") by (simpl; discriminate).
  assert (H1 : fst (watch "proj" 9 (script (map Reply scenario) down) queued) = Returned)
    by reflexivity.
  split; [split; assumption|].
  exact (watch_sleeps_after_Completed "proj" 9 (script (map Reply scenario) down)
           queued H0 H1).
Defined.

Section Upload.
Import TrainClassifierMain.

Variable project_id : string.
Variable listdir : string -> option (list string).
Variable files : string -> option (list Byte.byte).
Variable answers : nat -> option exn.
Variable folder : string.

Local Abbreviation sent := (TrainClassifierMain.sent files).

Lemma uploads_app a b : uploads (a ++ b) = uploads a ++ uploads b.
Proof.
  induction a as [|e a IH]; [reflexivity|].
  destruct e; simpl; rewrite IH; reflexivity.
Qed.

(** One folder, every file in place: the requests go out in the order of
    the listing until one raises. *)
Lemma upload_folder_spec tag path images :
  (forall image, In image images -> files (path_join path image) <> None) ->
  forall n,
    ((forall j, j < length images -> answers (n + j) = None) ->
     exists tr,
       upload_folder project_id files answers tag path images n
       = (Returned, tr, n + length images) /\
       uploads tr = map (fun image => sent (tag, path_join path image)) images /\
       printed tr = []) /\
    (forall k ex,
       k < length images ->
       answers (n + k) = Some ex ->
       (forall j, j < k -> answers (n + j) = None) ->
       exists tr,
         upload_folder project_id files answers tag path images n
         = (Raised ex, tr, n + S k) /\
         uploads tr =
           map (fun image => sent (tag, path_join path image)) (firstn (S k) images)).
Proof.
  induction images as [|image images IH]; intros Hfiles n.
  - split.
    + intros _. exists []. rewrite Nat.add_0_r. repeat split.
    + intros k ex Hk. simpl in Hk. lia.
  - assert (Hrest : forall i, In i images -> files (path_join path i) <> None)
      by (intros i Hi; apply Hfiles; right; exact Hi).
    assert (Hfile : files (path_join path image) <> None)
      by (apply Hfiles; left; reflexivity).
    destruct (IH Hrest (S n)) as [IHok IHko].
    cbn [upload_folder].
    destruct (files (path_join path image)) as [data|] eqn:Ef; [|contradiction].
    split.
    + intros Hans.
      assert (H0 : answers n = None)
        by (rewrite <- (Nat.add_0_r n); apply Hans; simpl; lia).
      rewrite H0.
      destruct IHok as (tr & Hrun & Hup & Hpr).
      { intros j Hj. replace (S n + j) with (n + S j) by lia. apply Hans. simpl. lia. }
      rewrite Hrun. eexists. split; [|split].
      * f_equal. simpl. lia.
      * simpl. rewrite Hup. unfold sent, content. simpl. rewrite Ef. reflexivity.
      * simpl. exact Hpr.
    + intros k ex Hk Hex Hbefore. destruct k as [|k].
      * rewrite Nat.add_0_r in Hex. rewrite Hex. eexists. split.
        -- f_equal. lia.
        -- simpl. unfold sent, content. simpl. rewrite Ef. reflexivity.
      * assert (H0 : answers n = None)
          by (rewrite <- (Nat.add_0_r n); apply Hbefore; lia).
        rewrite H0.
        destruct (IHko k ex) as (tr & Hrun & Hup).
        { simpl in Hk. lia. }
        { replace (S n + k) with (n + S k) by lia. exact Hex. }
        { intros j Hj. replace (S n + j) with (n + S j) by lia. apply Hbefore. lia. }
        rewrite Hrun. eexists. split.
        -- f_equal. lia.
        -- cbn [uploads firstn map]. rewrite Hup.
           unfold sent, content. simpl. rewrite Ef. reflexivity.
Qed.

Lemma length_folder_work tag images :
  listdir (path_join folder (name tag)) = Some images ->
  folder_work listdir folder tag =
  map (fun image => (tag, path_join (path_join folder (name tag)) image)) images.
Proof. intros H. unfold folder_work. rewrite H. reflexivity. Qed.

(** All the tags, every folder and file in place. *)
Lemma upload_tags_spec tags :
  (forall tag, In tag tags -> listdir (path_join folder (name tag)) <> None) ->
  (forall w, In w (work listdir folder tags) -> files (snd w) <> None) ->
  forall n,
    ((forall j, j < length (work listdir folder tags) -> answers (n + j) = None) ->
     exists tr,
       upload_tags project_id listdir files answers folder tags n
       = (Returned, tr, n + length (work listdir folder tags)) /\
       uploads tr = map sent (work listdir folder tags) /\
       printed tr = map name tags) /\
    (forall k ex,
       k < length (work listdir folder tags) ->
       answers (n + k) = Some ex ->
       (forall j, j < k -> answers (n + j) = None) ->
       exists tr n',
         upload_tags project_id listdir files answers folder tags n
         = (Raised ex, tr, n') /\
         uploads tr = map sent (firstn (S k) (work listdir folder tags))).
Proof.
  induction tags as [|tag tags IH]; intros Hdirs Hfiles n.
  - split.
    + intros _. exists []. simpl. rewrite Nat.add_0_r. repeat split.
    + intros k ex Hk. simpl in Hk. lia.
  - assert (Hdir : listdir (path_join folder (name tag)) <> None)
      by (apply Hdirs; left; reflexivity).
    destruct (listdir (path_join folder (name tag))) as [images|] eqn:El;
      [|contradiction].
    pose proof (length_folder_work tag images El) as Hw.
    assert (HW : work listdir folder (tag :: tags)
                 = folder_work listdir folder tag ++ work listdir folder tags)
      by reflexivity.
    rewrite HW in *. rewrite Hw in *.
    set (path := path_join folder (name tag)) in *.
    assert (Hf1 : forall image, In image images -> files (path_join path image) <> None).
    { intros image Hi. apply (Hfiles (tag, path_join path image)).
      apply in_or_app. left. apply in_map_iff. exists image. split; [reflexivity|exact Hi]. }
    assert (Hf2 : forall w, In w (work listdir folder tags) -> files (snd w) <> None).
    { intros w Hin. apply Hfiles. apply in_or_app. right. exact Hin. }
    assert (Hd2 : forall t, In t tags -> listdir (path_join folder (name t)) <> None).
    { intros t Hin. apply Hdirs. right. exact Hin. }
    rewrite length_app, length_map in *.
    cbn [upload_tags]. fold path. rewrite El.
    split.
    + intros Hans.
      destruct (proj1 (upload_folder_spec tag path images Hf1 n)) as (tr1 & Hrun1 & Hup1 & Hpr1).
      { intros j Hj. apply Hans. lia. }
      rewrite Hrun1.
      destruct (proj1 (IH Hd2 Hf2 (n + length images))) as (tr2 & Hrun2 & Hup2 & Hpr2).
      { intros j Hj. rewrite <- Nat.add_assoc. apply Hans. lia. }
      rewrite Hrun2. eexists. split; [|split].
      * f_equal. lia.
      * cbn [uploads]. rewrite uploads_app, Hup1, Hup2, map_app, map_map. reflexivity.
      * cbn [printed]. rewrite printed_app, Hpr1, Hpr2. reflexivity.
    + intros k ex Hk Hex Hbefore.
      destruct (Nat.lt_ge_cases k (length images)) as [Hin|Hout].
      * destruct (proj2 (upload_folder_spec tag path images Hf1 n) k ex Hin Hex Hbefore)
          as (tr1 & Hrun1 & Hup1).
        rewrite Hrun1. eexists. eexists. split; [reflexivity|].
        cbn [uploads]. rewrite Hup1.
        rewrite firstn_app, length_map.
        replace (S k - length images) with 0 by lia.
        rewrite firstn_O, app_nil_r, firstn_map, map_map. reflexivity.
      * destruct (proj1 (upload_folder_spec tag path images Hf1 n)) as (tr1 & Hrun1 & Hup1 & Hpr1).
        { intros j Hj. apply Hbefore. lia. }
        rewrite Hrun1.
        destruct (proj2 (IH Hd2 Hf2 (n + length images)) (k - length images) ex)
          as (tr2 & n2 & Hrun2 & Hup2).
        { lia. }
        { rewrite <- Hex. f_equal. lia. }
        { intros j Hj. rewrite <- Nat.add_assoc. apply Hbefore. lia. }
        rewrite Hrun2. eexists. eexists. split; [reflexivity|].
        cbn [uploads]. rewrite uploads_app, Hup1, Hup2.
        rewrite firstn_app, length_map.
        replace (S k - length images) with (S (k - length images)) by lia.
        rewrite (firstn_all2 (n := S k)) by (rewrite length_map; lia).
        rewrite map_app, map_map. reflexivity.
Qed.

Lemma Upload_Images_ok tags :
  (forall tag, In tag tags -> listdir (path_join folder (name tag)) <> None) ->
  (forall w, In w (work listdir folder tags) -> files (snd w) <> None) ->
  (forall j, j < length (work listdir folder tags) -> answers j = None) ->
  exists tr,
    Upload_Images project_id (inr tags) listdir files answers folder = (Returned, tr) /\
    uploads tr = map sent (work listdir folder tags) /\
    printed tr = "Uploading images..." :: map name tags.
Proof.
  intros Hdirs Hfiles Hans. unfold Upload_Images.
  destruct (proj1 (upload_tags_spec tags Hdirs Hfiles 0) Hans) as (tr & Hrun & Hup & Hpr).
  rewrite Hrun. eexists. split; [reflexivity|].
  simpl. rewrite Hup, Hpr. split; reflexivity.
Qed.

(** X4: when every folder and file is in place and no request raises,
    [Upload_Images] sends exactly one request per image, tag by tag and in
    the order of the listings, each with the content of the file and the
    single id of the tag whose folder holds it; it prints the heading and
    the name of every tag, and returns. *)
Theorem every_image_uploaded_once tags :
  (forall tag, In tag tags -> listdir (path_join folder (name tag)) <> None) ->
  (forall w, In w (work listdir folder tags) -> files (snd w) <> None) ->
  (forall j, j < length (work listdir folder tags) -> answers j = None) ->
  let r := Upload_Images project_id (inr tags) listdir files answers folder in
  fst r = Returned /\
  uploads (snd r) =
    map (fun w => (content files (snd w), [id (fst w)])) (work listdir folder tags) /\
  printed (snd r) = "Uploading images..." :: map name tags.
Proof.
  intros Hdirs Hfiles Hans r. subst r.
  destruct (Upload_Images_ok tags Hdirs Hfiles Hans) as (tr & Hrun & Hup & Hpr).
  rewrite Hrun. simpl. rewrite Hup, Hpr. repeat split.
Qed.

(** X5: the upload is not all or nothing: when request number [k] (from 0) is
    the first to raise, the [k] images before it have been sent and
    accepted, that exception ends [Upload_Images], and the images after it
    are never sent. *)
Theorem upload_stops_at_first_failure tags k ex :
  (forall tag, In tag tags -> listdir (path_join folder (name tag)) <> None) ->
  (forall w, In w (work listdir folder tags) -> files (snd w) <> None) ->
  k < length (work listdir folder tags) ->
  answers k = Some ex ->
  (forall j, j < k -> answers j = None) ->
  let r := Upload_Images project_id (inr tags) listdir files answers folder in
  fst r = Raised ex /\
  uploads (snd r) =
    map (fun w => (content files (snd w), [id (fst w)]))
      (firstn (S k) (work listdir folder tags)).
Proof.
  intros Hdirs Hfiles Hk Hex Hbefore r. subst r. unfold Upload_Images.
  destruct (proj2 (upload_tags_spec tags Hdirs Hfiles 0) k ex Hk Hex Hbefore)
    as (tr & n' & Hrun & Hup).
  rewrite Hrun. simpl. rewrite Hup. split; reflexivity.
Qed.

Lemma upload_folder_sources tag path images :
  forall n,
    Forall (fun u => exists image,
                In image images /\
                files (path_join path image) = Some (fst u) /\ snd u = [id tag])
      (uploads (snd (fst (upload_folder project_id files answers tag path images n)))).
Proof.
  induction images as [|image images IH]; intros n; [constructor|].
  cbn [upload_folder].
  destruct (files (path_join path image)) as [data|] eqn:Ef; [|constructor].
  destruct (answers n) as [ex|].
  - simpl. constructor; [|constructor]. exists image. simpl. auto.
  - specialize (IH (S n)).
    destruct (upload_folder project_id files answers tag path images (S n))
      as [[o tr] n'].
    simpl in *. constructor.
    + exists image. simpl. auto.
    + eapply Forall_impl; [|exact IH].
      intros u (i & Hi & Hu). exists i. simpl. auto.
Qed.

(** X6: whatever the disk and the service do, each upload request of
    [Upload_Images] carries the content of a file found in the folder of a
    tag of the project, with the id of that tag and no other. *)
Theorem uploads_come_from_tag_folders tags :
  Forall (fun u => exists tag images image,
              In tag tags /\
              listdir (path_join folder (name tag)) = Some images /\
              In image images /\
              files (path_join (path_join folder (name tag)) image) = Some (fst u) /\
              snd u = [id tag])
    (uploads (snd (Upload_Images project_id (inr tags) listdir files answers folder))).
Proof.
  unfold Upload_Images.
  assert (H : forall n,
             Forall (fun u => exists tag images image,
                         In tag tags /\
                         listdir (path_join folder (name tag)) = Some images /\
                         In image images /\
                         files (path_join (path_join folder (name tag)) image)
                         = Some (fst u) /\
                         snd u = [id tag])
               (uploads (snd (fst (upload_tags project_id listdir files answers
                                     folder tags n))))).
  { induction tags as [|tag tags' IH]; intros n; [constructor|].
    cbn [upload_tags].
    destruct (listdir (path_join folder (name tag))) as [images|] eqn:El;
      [|constructor].
    pose proof (upload_folder_sources tag (path_join folder (name tag)) images n) as Hf.
    destruct (upload_folder project_id files answers tag
                (path_join folder (name tag)) images n) as [[o tr] n'].
    simpl in Hf.
    assert (Hhere : Forall (fun u => exists tag0 images0 image,
                              In tag0 (tag :: tags') /\
                              listdir (path_join folder (name tag0)) = Some images0 /\
                              In image images0 /\
                              files (path_join (path_join folder (name tag0)) image)
                              = Some (fst u) /\
                              snd u = [id tag0]) (uploads tr)).
    { eapply Forall_impl; [|exact Hf].
      intros u (image & Hi & Hfile & Hid).
      exists tag, images, image. simpl. auto. }
    destruct o; try exact Hhere.
    specialize (IH n').
    destruct (upload_tags project_id listdir files answers folder tags' n')
      as [[o' tr'] n''].
    simpl in *. rewrite uploads_app. apply Forall_app. split; [exact Hhere|].
    eapply Forall_impl; [|exact IH].
    intros u (t & imgs & i & Ht & Hrest). exists t, imgs, i. split; [right; exact Ht|exact Hrest]. }
  specialize (H 0).
  destruct (upload_tags project_id listdir files answers folder tags 0) as [[o tr] n'].
  simpl in *. exact H.
Qed.

(** [Upload_Images] starts no training. *)
Lemma upload_folder_no_training tag path images :
  forall n p,
    ~ In (TrainClassifier.train_project p)
        (snd (fst (upload_folder project_id files answers tag path images n))).
Proof.
  induction images as [|image images IH]; intros n p; [intros []|].
  cbn [upload_folder].
  destruct (files (path_join path image)); [|intros []].
  destruct (answers n).
  - simpl. intros [H|[]]. discriminate.
  - specialize (IH (S n) p).
    destruct (upload_folder project_id files answers tag path images (S n))
      as [[o tr] n'].
    simpl in *. intros [H|H]; [discriminate|exact (IH H)].
Qed.

Lemma Upload_Images_no_training project_tags p :
  ~ In (TrainClassifier.train_project p)
      (snd (Upload_Images project_id project_tags listdir files answers folder)).
Proof.
  unfold Upload_Images. destruct project_tags as [ex|tags].
  - simpl. intros [H|[H|[]]]; discriminate.
  - assert (H : forall n,
               ~ In (TrainClassifier.train_project p)
                   (snd (fst (upload_tags project_id listdir files answers
                                folder tags n)))).
    { induction tags as [|tag tags' IH]; intros n; [intros []|].
      cbn [upload_tags].
      destruct (listdir (path_join folder (name tag))) as [images|].
      - pose proof (upload_folder_no_training tag (path_join folder (name tag))
                      images n p) as Hf.
        destruct (upload_folder project_id files answers tag
                    (path_join folder (name tag)) images n) as [[o tr] n'].
        simpl in Hf.
        destruct o.
        + specialize (IH n').
          destruct (upload_tags project_id listdir files answers folder tags' n')
            as [[o' tr'] n''].
          simpl in *. intros [H|H]; [discriminate|].
          apply in_app_or in H. destruct H; auto.
        + simpl. intros [H|H]; [discriminate|auto].
        + simpl. intros [H|H]; [discriminate|auto].
      - simpl. intros [H|[]]. discriminate. }
    specialize (H 0).
    destruct (upload_tags project_id listdir files answers folder tags 0)
      as [[o tr] n'].
    simpl in *. intros [Hc|[Hc|Hc]]; [discriminate|discriminate|auto].
Qed.

End Upload.

(** X7: [main] never lets an exception out, and it asks the service to train
    only after [Upload_Images] has returned: when the project cannot be
    fetched, or a folder, a file or an upload fails, no [train_project]
    request is sent. *)
Theorem main_trains_only_after_upload
  env_project_id project project_tags listdir files answers fuel submit service :
  let r := TrainClassifierMain.main env_project_id project project_tags listdir files
             answers fuel submit service in
  (forall ex, fst r <> Raised ex) /\
  (forall p,
     In (TrainClassifierMain.client (train_project p)) (snd r) ->
     exists project_id,
       project = inr project_id /\
       fst (TrainClassifierMain.Upload_Images project_id project_tags listdir files
              answers "more-training-images") = Returned).
Proof.
  intros r. subst r. unfold TrainClassifierMain.main.
  destruct project as [ex|project_id].
  - split; [discriminate|].
    simpl. intros p [H|[H|[]]]; discriminate.
  - pose proof (Upload_Images_no_training project_id listdir files answers
                  "more-training-images" project_tags) as Hno.
    destruct (TrainClassifierMain.Upload_Images project_id project_tags listdir files
                answers "more-training-images") as [o tr] eqn:EU.
    simpl in Hno.
    destruct o.
    + destruct (Train_Model project_id fuel submit service) as [o' tr'].
      split.
      * destruct o'; discriminate.
      * intros p _. exists project_id. rewrite EU. split; reflexivity.
    + split; [discriminate|].
      simpl. intros p [H|H]; [discriminate|].
      apply in_map_iff in H. destruct H as (e & He & Hin).
      injection He as ->. apply in_app_or in Hin.
      destruct Hin as [Hin|[Hin|[]]]; [|discriminate].
      exfalso. exact (Hno p Hin).
    + split; [discriminate|].
      simpl. intros p [H|H]; [discriminate|].
      apply in_map_iff in H. destruct H as (e & He & Hin).
      injection He as ->. exfalso. exact (Hno p Hin).
Qed.

Lemma client_events_map tr :
  TrainClassifierMain.client_events (map TrainClassifierMain.client tr) = tr.
Proof. induction tr as [|e tr IH]; [reflexivity|]. simpl. rewrite IH. reflexivity. Qed.

(** X8: a full run of [main] that goes well: the project is fetched, every
    image is uploaded, then the training is started and watched. The
    console shows the heading, the name of every tag, "Training ...", one
    status line per answer of the service and "Model trained!"; the
    training request comes after the last upload. *)
Theorem main_uploads_then_trains
  env_project_id project_id tags listdir files answers it its final rest fuel :
  (forall tag, In tag tags ->
     listdir (path_join "more-training-images" (TrainClassifierMain.name tag)) <> None) ->
  (forall w, In w (TrainClassifierMain.work listdir "more-training-images" tags) ->
     files (snd w) <> None) ->
  (forall j, j < length (TrainClassifierMain.work listdir "more-training-images" tags) ->
     answers j = None) ->
  status it <> "Completed" ->
  Forall (fun i => status i <> "Completed") its ->
  status final = "Completed" ->
  let r := TrainClassifierMain.main env_project_id (inr project_id) (inr tags) listdir
             files answers (length (its ++ [final]) + fuel) (Reply it)
             (script (map Reply (its ++ [final])) rest) in
  fst r = Returned /\
  snd r =
    TrainClassifierMain.get_project env_project_id
      :: map TrainClassifierMain.client
           (snd (TrainClassifierMain.Upload_Images project_id (inr tags) listdir files
                   answers "more-training-images")
              ++ print "Training ..." :: train_project project_id
              :: cycles project_id it (its ++ [final]) ++ [print "Model trained!"]) /\
  printed (TrainClassifierMain.client_events (snd r)) =
    "Uploading images..." :: map TrainClassifierMain.name tags
      ++ "Training ..." :: map (fun i => status_line (status i)) (its ++ [final])
      ++ ["Model trained!"] /\
  TrainClassifierMain.uploads (TrainClassifierMain.client_events (snd r)) =
    map (TrainClassifierMain.sent files)
      (TrainClassifierMain.work listdir "more-training-images" tags).
Proof.
  intros Hdirs Hfiles Hans Hit Hall Hfinal r.
  destruct (Upload_Images_ok project_id listdir files answers "more-training-images"
              tags Hdirs Hfiles Hans) as (tr & Hrun & Hup & Hpr).
  assert (Htrain :
            Train_Model project_id (length (its ++ [final]) + fuel) (Reply it)
              (script (map Reply (its ++ [final])) rest)
            = (Returned,
               print "Training ..." :: train_project project_id
                 :: cycles project_id it (its ++ [final]) ++ [print "Model trained!"])).
  { unfold Train_Model, watch. rewrite map_app, length_snoc. simpl map.
    rewrite while_loop_next by assumption.
    rewrite while_loop_exit by assumption. simpl. rewrite app_nil_r. reflexivity. }
  assert (Hr : r = (Returned,
                    TrainClassifierMain.get_project env_project_id
                      :: map TrainClassifierMain.client
                           (tr ++ print "Training ..." :: train_project project_id
                              :: cycles project_id it (its ++ [final])
                              ++ [print "Model trained!"]))).
  { subst r. unfold TrainClassifierMain.main. rewrite Hrun, Htrain. reflexivity. }
  rewrite Hr, Hrun. cbn [fst snd TrainClassifierMain.client_events].
  rewrite client_events_map.
  split; [reflexivity|]. split; [reflexivity|]. split.
  - rewrite printed_app, Hpr. cbn [printed].
    rewrite printed_app, printed_cycles. reflexivity.
  - rewrite uploads_app, Hup. cbn [TrainClassifierMain.uploads].
    rewrite uploads_app.
    assert (Hc : forall l i, TrainClassifierMain.uploads (cycles project_id i l) = []).
    { induction l as [|j l IH]; intros i; [reflexivity|]. simpl. apply IH. }
    rewrite Hc. simpl. rewrite app_nil_r. reflexivity.
Qed.

Lemma demo_dirs :
  forall tag, In tag TrainClassifierMain.demo_tags ->
    TrainClassifierMain.demo_listdir
      (path_join "more-training-images" (TrainClassifierMain.name tag)) <> None.
Proof. intros tag [<-|[<-|[]]]; vm_compute; discriminate. Qed.

Lemma demo_files_present :
  forall w,
    In w (TrainClassifierMain.work TrainClassifierMain.demo_listdir
            "more-training-images" TrainClassifierMain.demo_tags) ->
    TrainClassifierMain.demo_files (snd w) <> None.
Proof.
  intros w Hin. vm_compute in Hin.
  destruct Hin as [<-|[<-|[<-|[]]]]; vm_compute; discriminate.
Qed.

Lemma every_image_uploaded_once_witness :
  ((forall tag, In tag TrainClassifierMain.demo_tags ->
      TrainClassifierMain.demo_listdir
        (path_join "more-training-images" (TrainClassifierMain.name tag)) <> None) /\
   (forall w,
      In w (TrainClassifierMain.work TrainClassifierMain.demo_listdir
              "more-training-images" TrainClassifierMain.demo_tags) ->
      TrainClassifierMain.demo_files (snd w) <> None) /\
   (forall j,
      j < length (TrainClassifierMain.work TrainClassifierMain.demo_listdir
                    "more-training-images" TrainClassifierMain.demo_tags) ->
      TrainClassifierMain.accepting j = None)) /\
  let r := TrainClassifierMain.Upload_Images "proj" (inr TrainClassifierMain.demo_tags)
             TrainClassifierMain.demo_listdir TrainClassifierMain.demo_files
             TrainClassifierMain.accepting "more-training-images" in
  fst r = Returned /\
  TrainClassifierMain.uploads (snd r) =
    map (fun w => (TrainClassifierMain.content TrainClassifierMain.demo_files (snd w),
                   [TrainClassifierMain.id (fst w)]))
      (TrainClassifierMain.work TrainClassifierMain.demo_listdir
         "more-training-images" TrainClassifierMain.demo_tags) /\
  printed (snd r) = "Uploading images..."
                      :: map TrainClassifierMain.name TrainClassifierMain.demo_tags.
Proof.
  assert (H3 : forall j,
             j < length (TrainClassifierMain.work TrainClassifierMain.demo_listdir
                           "more-training-images" TrainClassifierMain.demo_tags) ->
             TrainClassifierMain.accepting j = None) by reflexivity.
  split; [exact (conj demo_dirs (conj demo_files_present H3))|].
  exact (every_image_uploaded_once "proj" TrainClassifierMain.demo_listdir
           TrainClassifierMain.demo_files TrainClassifierMain.accepting
           "more-training-images" TrainClassifierMain.demo_tags
           demo_dirs demo_files_present H3).
Defined.

Lemma upload_stops_at_first_failure_witness :
  ((forall tag, In tag TrainClassifierMain.demo_tags ->
      TrainClassifierMain.demo_listdir
        (path_join "more-training-images" (TrainClassifierMain.name tag)) <> None) /\
   (forall w,
      In w (TrainClassifierMain.work TrainClassifierMain.demo_listdir
              "more-training-images" TrainClassifierMain.demo_tags) ->
      TrainClassifierMain.demo_files (snd w) <> None) /\
   1 < length (TrainClassifierMain.work TrainClassifierMain.demo_listdir
                 "more-training-images" TrainClassifierMain.demo_tags) /\
   TrainClassifierMain.second_fails 1 = Some (ClientError "quota exceeded") /\
   (forall j, j < 1 -> TrainClassifierMain.second_fails j = None)) /\
  let r := TrainClassifierMain.Upload_Images "proj" (inr TrainClassifierMain.demo_tags)
             TrainClassifierMain.demo_listdir TrainClassifierMain.demo_files
             TrainClassifierMain.second_fails "more-training-images" in
  fst r = Raised (ClientError "quota exceeded") /\
  TrainClassifierMain.uploads (snd r) =
    map (fun w => (TrainClassifierMain.content TrainClassifierMain.demo_files (snd w),
                   [TrainClassifierMain.id (fst w)]))
      (firstn 2 (TrainClassifierMain.work TrainClassifierMain.demo_listdir
                   "more-training-images" TrainClassifierMain.demo_tags)).
Proof.
  assert (H3 : 1 < length (TrainClassifierMain.work TrainClassifierMain.demo_listdir
                             "more-training-images" TrainClassifierMain.demo_tags))
    by (vm_compute; lia).
  assert (H4 : TrainClassifierMain.second_fails 1 = Some (ClientError "quota exceeded"))
    by reflexivity.
  assert (H5 : forall j, j < 1 -> TrainClassifierMain.second_fails j = None).
  { intros j Hj. destruct j; [reflexivity|lia]. }
  split; [exact (conj demo_dirs (conj demo_files_present (conj H3 (conj H4 H5))))|].
  exact (upload_stops_at_first_failure "proj" TrainClassifierMain.demo_listdir
           TrainClassifierMain.demo_files TrainClassifierMain.second_fails
           "more-training-images" TrainClassifierMain.demo_tags 1
           (ClientError "quota exceeded") demo_dirs demo_files_present H3 H4 H5).
Defined.

Lemma main_uploads_then_trains_witness :
  ((forall tag, In tag TrainClassifierMain.demo_tags ->
      TrainClassifierMain.demo_listdir
        (path_join "more-training-images" (TrainClassifierMain.name tag)) <> None) /\
   (forall w,
      In w (TrainClassifierMain.work TrainClassifierMain.demo_listdir
              "more-training-images" TrainClassifierMain.demo_tags) ->
      TrainClassifierMain.demo_files (snd w) <> None) /\
   (forall j,
      j < length (TrainClassifierMain.work TrainClassifierMain.demo_listdir
                    "more-training-images" TrainClassifierMain.demo_tags) ->
      TrainClassifierMain.accepting j = None) /\
   status queued <> "Completed" /\
   Forall (fun i => status i <> "Completed") [training] /\
   status completed = "Completed") /\
  printed (TrainClassifierMain.client_events
             (snd (TrainClassifierMain.main "proj" (inr "proj")
                     (inr TrainClassifierMain.demo_tags)
                     TrainClassifierMain.demo_listdir TrainClassifierMain.demo_files
                     TrainClassifierMain.accepting (length ([training] ++ [completed]) + 0)
                     (Reply queued)
                     (script (map Reply ([training] ++ [completed])) down)))) =
  ["Uploading images..."; "apple"; "banana"; "Training ..."; "Training ...";
   "Completed ..."; "Model trained!"].
Proof.
  assert (H3 : forall j,
             j < length (TrainClassifierMain.work TrainClassifierMain.demo_listdir
                           "more-training-images" TrainClassifierMain.demo_tags) ->
             TrainClassifierMain.accepting j = None) by reflexivity.
  assert (H4 : status queued <> "Completed") by (simpl; discriminate).
  assert (H5 : Forall (fun i => status i <> "Completed") [training])
    by (repeat constructor; simpl; discriminate).
  assert (H6 : status completed = "Completed") by reflexivity.
  split; [exact (conj demo_dirs (conj demo_files_present
                   (conj H3 (conj H4 (conj H5 H6)))))|].
  exact (proj1 (proj2 (proj2
           (main_uploads_then_trains "proj" "proj" TrainClassifierMain.demo_tags
              TrainClassifierMain.demo_listdir TrainClassifierMain.demo_files
              TrainClassifierMain.accepting queued [training] completed down 0
              demo_dirs demo_files_present H3 H4 H5 H6)))).
Defined.

End TrainClassifierMainSpec.

(** * More on test-classifier.py: the loop over the test images *)

Module TestClassifierMainSpec.
Import TestClassifier TestClassifierMain.

Section Loop.

Variable format_percent : float -> string.
Variable project_id model_name : string.
Variable files : string -> option (list Byte.byte).
Variable classify : list Byte.byte -> exn + list Prediction.

Local Abbreviation one := (classify_one format_percent project_id model_name files classify).
Local Abbreviation all := (classify_all format_percent project_id model_name files classify).

(** The loop is its body, image after image, as long as the body returns. *)
Lemma classify_all_cons image rest :
  all (image :: rest) =
  match one image with
  | (Returned, tr) => (fst (all rest), tr ++ snd (all rest))
  | r => r
  end.
Proof.
  cbn [classify_all]. unfold classify_one.
  destruct (files (path_join "test-images" image)) as [data|]; [|reflexivity].
  destruct (classify data) as [ex|predictions]; [reflexivity|].
  destruct (classify_all format_percent project_id model_name files classify rest).
  reflexivity.
Qed.

Lemma requests_app a b : requests (a ++ b) = requests a ++ requests b.
Proof.
  induction a as [|e a IH]; [reflexivity|]. destruct e; simpl; rewrite ?IH; reflexivity.
Qed.

Lemma lines_app a b : printed (a ++ b) = printed a ++ printed b.
Proof.
  induction a as [|e a IH]; [reflexivity|]. destruct e; simpl; rewrite ?IH; reflexivity.
Qed.

Lemma one_request image : length (requests (snd (one image))) <= 1.
Proof.
  unfold classify_one.
  destruct (files (path_join "test-images" image)) as [data|]; [|simpl; lia].
  destruct (classify data) as [ex|predictions]; simpl; [lia|].
  assert (H : requests (report format_percent image predictions) = []).
  { induction predictions as [|p l IH]; [reflexivity|]. simpl.
    destruct (0.5 <? probability p)%float; simpl; exact IH. }
  rewrite H. simpl. lia.
Qed.

(** X9: when every image of the folder can be read and classified, the loop
    handles them all, in the order of the listing: the trace is, image
    after image, its request followed by its lines. *)
Theorem every_image_classified listing :
  (forall image, In image listing -> fst (one image) = Returned) ->
  all listing = (Returned, flat_map (fun image => snd (one image)) listing) /\
  length (requests (snd (all listing))) = length listing.
Proof.
  intros Hok.
  assert (Hall : all listing
                 = (Returned, flat_map (fun image => snd (one image)) listing)).
  { induction listing as [|image rest IH]; [reflexivity|].
    rewrite classify_all_cons. cbn [flat_map].
    pose proof (Hok image (or_introl eq_refl)) as H1.
    destruct (one image) as [o tr]. simpl in H1. subst o.
    rewrite IH by (intros i Hi; apply Hok; right; exact Hi).
    reflexivity. }
  split; [exact Hall|]. rewrite Hall. simpl snd. clear Hall.
  induction listing as [|image rest IH]; [reflexivity|].
  cbn [flat_map]. rewrite requests_app, length_app.
  rewrite IH by (intros i Hi; apply Hok; right; exact Hi).
  pose proof (Hok image (or_introl eq_refl)) as H1.
  pose proof (one_request image) as Hle.
  unfold classify_one in *.
  destruct (files (path_join "test-images" image)) as [data|]; [|discriminate].
  destruct (classify data) as [ex|predictions]; [discriminate|].
  simpl in *. lia.
Qed.

(** X10: the first image that cannot be read or classified ends the loop: the
    images before it have been handled, the exception goes to the handler
    of [main], which prints it as the last line, and the images after it
    are neither read nor sent. *)
Theorem first_failure_ends_the_loop pre bad post ex :
  (forall image, In image pre -> fst (one image) = Returned) ->
  fst (one bad) = Raised ex ->
  all (pre ++ bad :: post) =
    (Raised ex, flat_map (fun image => snd (one image)) pre ++ snd (one bad)) /\
  main_try format_percent project_id model_name files classify (pre ++ bad :: post) =
    (Returned,
     flat_map (fun image => snd (one image)) pre ++ snd (one bad) ++ [print (str ex)]) /\
  length (requests (snd (all (pre ++ bad :: post)))) <= S (length pre).
Proof.
  intros Hpre Hbad.
  assert (Hall : all (pre ++ bad :: post) =
                 (Raised ex, flat_map (fun image => snd (one image)) pre ++ snd (one bad))).
  { induction pre as [|image pre IH].
    - simpl app. rewrite classify_all_cons.
      destruct (one bad) as [o tr]. simpl in Hbad. subst o. reflexivity.
    - cbn [app flat_map]. rewrite classify_all_cons.
      pose proof (Hpre image (or_introl eq_refl)) as H1.
      destruct (one image) as [o tr]. simpl in H1. subst o.
      rewrite IH by (intros i Hi; apply Hpre; right; exact Hi).
      cbn [fst snd]. rewrite app_assoc. reflexivity. }
  split; [exact Hall|]. split.
  - unfold main_try. rewrite Hall. rewrite <- app_assoc. reflexivity.
  - rewrite Hall. simpl snd. rewrite requests_app, length_app.
    pose proof (one_request bad).
    assert (length (requests (flat_map (fun image => snd (one image)) pre)) <= length pre).
    { clear. induction pre as [|i pre IH]; [simpl; lia|].
      simpl. rewrite requests_app, length_app. pose proof (one_request i). lia. }
    lia.
Qed.

End Loop.

(** X11: in every run, each line printed by the loop names an image of the
    listing and a prediction the service returned for that very image,
    whose probability is above one half. *)
Theorem lines_report_answers format_percent project_id model_name files classify listing :
  forall line,
    In line (printed (snd (classify_all format_percent project_id model_name files
                             classify listing))) ->
    exists image image_data predictions p,
      In image listing /\
      files (path_join "test-images" image) = Some image_data /\
      classify image_data = inr predictions /\
      In p predictions /\
      (0.5 <? probability p)%float = true /\
      line = print_args [image; result_text format_percent p].
Proof.
  induction listing as [|image rest IH]; intros line Hin; [destruct Hin|].
  cbn [classify_all] in Hin.
  destruct (files (path_join "test-images" image)) as [data|] eqn:Ef; [|destruct Hin].
  destruct (classify data) as [ex|predictions] eqn:Ec; [destruct Hin|].
  destruct (classify_all format_percent project_id model_name files classify rest)
    as [o tr].
  simpl in Hin, IH. rewrite lines_app in Hin. apply in_app_or in Hin.
  destruct Hin as [Hin|Hin].
  - rewrite PredictionSpec.classifier_filter in Hin.
    assert (Hp : forall l, printed (map (fun p => print (print_args
                               [image; result_text format_percent p])) l)
                           = map (fun p => print_args [image; result_text format_percent p]) l).
    { induction l as [|q l IHl]; [reflexivity|]. simpl. rewrite IHl. reflexivity. }
    rewrite Hp in Hin. apply in_map_iff in Hin. destruct Hin as (p & Hline & Hp').
    apply filter_In in Hp'. destruct Hp' as [Hp1 Hp2].
    exists image, data, predictions, p.
    repeat split; auto. left. reflexivity.
  - destruct (IH line Hin) as (i & d & ps & p & Hi & Hrest).
    exists i, d, ps, p. split; [right; exact Hi | exact Hrest].
Qed.

Lemma demo_images_fine :
  forall image, In image ["IMG_TEST_1.jpg"; "IMG_TEST_3.jpg"] ->
    fst (classify_one demo_percent "proj" "fruit" demo_files demo_classify image)
    = Returned.
Proof. intros image [<-|[<-|[]]]; reflexivity. Qed.

Lemma every_image_classified_witness :
  (forall image, In image ["IMG_TEST_1.jpg"; "IMG_TEST_3.jpg"] ->
     fst (classify_one demo_percent "proj" "fruit" demo_files demo_classify image)
     = Returned) /\
  classify_all demo_percent "proj" "fruit" demo_files demo_classify
    ["IMG_TEST_1.jpg"; "IMG_TEST_3.jpg"] =
  (Returned,
   flat_map (fun image =>
               snd (classify_one demo_percent "proj" "fruit" demo_files demo_classify
                      image))
     ["IMG_TEST_1.jpg"; "IMG_TEST_3.jpg"]) /\
  length (requests (snd (classify_all demo_percent "proj" "fruit" demo_files
                           demo_classify ["IMG_TEST_1.jpg"; "IMG_TEST_3.jpg"]))) = 2.
Proof.
  split; [exact demo_images_fine|].
  exact (every_image_classified demo_percent "proj" "fruit" demo_files demo_classify
           ["IMG_TEST_1.jpg"; "IMG_TEST_3.jpg"] demo_images_fine).
Defined.

Lemma first_failure_ends_the_loop_witness :
  ((forall image, In image ["IMG_TEST_1.jpg"] ->
      fst (classify_one demo_percent "proj" "fruit" demo_files demo_classify image)
      = Returned) /\
   fst (classify_one demo_percent "proj" "fruit" demo_files demo_classify
          "IMG_TEST_2.jpg")
   = Raised (FileNotFoundError "test-images/IMG_TEST_2.jpg")) /\
  printed (snd (main_try demo_percent "proj" "fruit" demo_files demo_classify
                  (["IMG_TEST_1.jpg"] ++ "IMG_TEST_2.jpg" :: ["IMG_TEST_3.jpg"]))) =
  ["IMG_TEST_1.jpg : apple (75%)";
   "[Errno 2] No such file or directory: 'test-images/IMG_TEST_2.jpg'"] /\
  length (requests (snd (classify_all demo_percent "proj" "fruit" demo_files
                           demo_classify
                           (["IMG_TEST_1.jpg"] ++ "IMG_TEST_2.jpg" :: ["IMG_TEST_3.jpg"]))))
  <= 2.
Proof.
  assert (H1 : forall image, In image ["IMG_TEST_1.jpg"] ->
             fst (classify_one demo_percent "proj" "fruit" demo_files demo_classify image)
             = Returned)
    by (intros image [<-|[]]; reflexivity).
  assert (H2 : fst (classify_one demo_percent "proj" "fruit" demo_files demo_classify
                      "IMG_TEST_2.jpg")
               = Raised (FileNotFoundError "test-images/IMG_TEST_2.jpg"))
    by reflexivity.
  split; [exact (conj H1 H2)|].
  destruct (first_failure_ends_the_loop demo_percent "proj" "fruit" demo_files
              demo_classify ["IMG_TEST_1.jpg"] "IMG_TEST_2.jpg" ["IMG_TEST_3.jpg"]
              (FileNotFoundError "test-images/IMG_TEST_2.jpg") H1 H2)
    as (_ & Hmain & Hcount).
  split; [rewrite Hmain; reflexivity | exact Hcount].
Defined.

Lemma lines_report_answers_witness :
  In "IMG_TEST_1.jpg : apple (75%)"
     (printed (snd (classify_all demo_percent "proj" "fruit" demo_files demo_classify
                      ["IMG_TEST_1.jpg"]))) /\
  exists image image_data predictions p,
    In image ["IMG_TEST_1.jpg"] /\
    demo_files (path_join "test-images" image) = Some image_data /\
    demo_classify image_data = inr predictions /\
    In p predictions /\
    (0.5 <? probability p)%float = true /\
    "IMG_TEST_1.jpg : apple (75%)" = print_args [image; result_text demo_percent p].
Proof.
  assert (H : In "IMG_TEST_1.jpg : apple (75%)"
                (printed (snd (classify_all demo_percent "proj" "fruit" demo_files
                                 demo_classify ["IMG_TEST_1.jpg"]))))
    by (left; reflexivity).
  split; [exact H|].
  exact (lines_report_answers demo_percent "proj" "fruit" demo_files demo_classify
           ["IMG_TEST_1.jpg"] _ H).
Defined.

End TestClassifierMainSpec.

(** * More on test-detector.py: [main] and [save_tagged_images] *)

Module TestDetectorMainSpec.
Import TestDetectorMain.

Section Main.

Variable float_of_int : Z -> float.
Variable int_of_float : float -> Z.
Variable format_2f : float -> string.
Variable project_id model_name : string.
Variable files : string -> option (list Byte.byte).
Variable detect : list Byte.byte -> exn + list TestDetector.Prediction.
Variable image : exn + list Z.

Local Abbreviation main :=
  (TestDetectorMain.main float_of_int int_of_float format_2f project_id model_name
     files detect image).

Lemma names_as_filter predictions :
  map run (TestDetector.list_objects predictions) = map name_line (confident predictions).
Proof.
  rewrite PredictionSpec.detector_filter, map_map. reflexivity.
Qed.





(** X13: a picture with two dimensions only (a greyscale image): the names are
    printed, then the unpacking of the shape raises; nothing is drawn and
    no file is saved. *)
Theorem greyscale_picture_is_not_saved image_data predictions h w :
  files "produce.jpg" = Some image_data ->
  detect image_data = inr predictions ->
  image = inr [h; w] ->
  main =
    heading :: detect_image project_id model_name image_data
      :: map name_line (confident predictions)
      ++ [run (TestDetector.print "not enough values to unpack (expected 3, got 2)")].
Proof.
  intros Hf Hd Hi. unfold TestDetectorMain.main, image_file. rewrite Hf, Hd, Hi.
  unfold save_tagged_images, unpack. rewrite names_as_filter. reflexivity.
Qed.



End Main.


Lemma greyscale_picture_is_not_saved_witness :
  (demo_files "produce.jpg" = Some (list_byte_of_string "JFIF") /\
   demo_detect (list_byte_of_string "JFIF") = inr demo_predictions /\
   @inr exn (list Z) [480%Z; 640%Z] = inr [480%Z; 640%Z]) /\
  TestDetectorMain.main demo_float_of_int demo_int_of_float demo_2f "proj" "detector"
    demo_files demo_detect (inr [480%Z; 640%Z]) =
  [ heading;
    detect_image "proj" "detector" (list_byte_of_string "JFIF");
    run (TestDetector.print "apple");
    run (TestDetector.print "not enough values to unpack (expected 3, got 2)") ].
Proof.
  split; [repeat split|].
  rewrite (greyscale_picture_is_not_saved demo_float_of_int demo_int_of_float demo_2f
             "proj" "detector" demo_files demo_detect (inr [480%Z; 640%Z])
             (list_byte_of_string "JFIF") demo_predictions 480 640
             eq_refl eq_refl eq_refl).
  vm_compute. reflexivity.
Defined.

End TestDetectorMainSpec.

(** * More on add-tagged-images.py: the batch and its report *)

Module AddTaggedImagesBatchSpec.
Import AddTaggedImages AddTaggedImagesBatch AddTaggedImagesSpec.

Lemma find_first {A} (f : A -> bool) (l : list A) (x : A) :
  find f l = Some x <->
  exists pre post, l = pre ++ x :: post /\ f x = true /\ Forall (fun y => f y = false) pre.
Proof.
  induction l as [|a l IH]; simpl.
  - split; [discriminate|]. intros (pre & post & H & _). destruct pre; discriminate.
  - destruct (f a) eqn:Fa.
    + split.
      * intros H. injection H as <-. exists [], l. repeat split; [exact Fa|constructor].
      * intros (pre & post & H & Fx & Hpre). destruct pre as [|b pre].
        -- injection H as -> _. reflexivity.
        -- injection H as -> _. inversion Hpre; subst. congruence.
    + rewrite IH. split.
      * intros (pre & post & -> & Fx & Hpre). exists (a :: pre), post.
        repeat split; [exact Fx|]. constructor; assumption.
      * intros (pre & post & H & Fx & Hpre). destruct pre as [|b pre].
        -- injection H as -> _. congruence.
        -- injection H as -> ->. inversion Hpre; subst.
           exists pre, post. repeat split; assumption.
Qed.

(** X15: the lookup of line 140 takes the first tag of the project that carries
    the name: it yields an id exactly when the tags split into tags of other
    names, then a tag of that name with that id, then the rest. Later tags
    of the same name are never used. *)
Theorem lookup_takes_first_match (number : Type) tags tag_name i :
  @lookup number tags tag_name = (inr i, []) <->
  exists pre t post,
    tags = pre ++ t :: post /\ name t = tag_name /\ id t = i /\
    Forall (fun u => name u <> tag_name) pre.
Proof.
  unfold lookup. split.
  - destruct (find (fun t => name t =? tag_name) tags) as [t|] eqn:E;
      [|intros H; discriminate].
    intros H. injection H as <-.
    apply find_first in E. destruct E as (pre & post & -> & Hn & Hpre).
    exists pre, t, post. repeat split.
    + apply String.eqb_eq. exact Hn.
    + eapply Forall_impl; [|exact Hpre]. intros u Hu. apply String.eqb_neq. exact Hu.
  - intros (pre & t & post & -> & Hn & <- & Hpre).
    assert (E : find (fun t0 => name t0 =? tag_name) (pre ++ t :: post) = Some t).
    { apply find_first. exists pre, post. repeat split.
      - apply String.eqb_eq. exact Hn.
      - eapply Forall_impl; [|exact Hpre]. intros u Hu. apply String.eqb_neq. exact Hu. }
    rewrite E. reflexivity.
Qed.

Section Batch.

Variable number : Type.
Variable project_id : string.
Variable files : string -> option (list Byte.byte).
Variable upload : list (ImageFileCreateEntry number) -> exn + ImageCreateSummary.
Variable tags : list Tag.
Variable folder : string.

Local Abbreviation complete :=
  (fun image : tagged_image number => all_known tags image && readable files folder image).

Lemma make_regions_ok (l : list (tagged_region number)) :
  forallb (fun t => known tags (tag t)) l = true ->
  make_regions tags l = (inr (map (region tags) l), []).
Proof.
  induction l as [|t l IH]; [reflexivity|].
  cbn [forallb make_regions map]. intros H. apply andb_prop in H. destruct H as [K Hl].
  destruct (lookup_known number tags _ K) as (tg & Hfind & ->).
  unfold bind at 1. rewrite (IH Hl). simpl.
  unfold region at 2, first_id. rewrite Hfind. reflexivity.
Qed.

Lemma make_batch_ok (images : list (tagged_image number)) :
  forallb complete images = true ->
  make_batch files tags folder images =
  (inr (map (entry files tags folder) images),
   map (fun i => open_ (path_join folder (filename i))) images).
Proof.
  induction images as [|image images IH]; [reflexivity|].
  cbn [forallb make_batch map]. intros H.
  apply andb_prop in H. destruct H as [Hc Hl].
  apply andb_prop in Hc. destruct Hc as [K R].
  unfold all_known in K. rewrite (make_regions_ok _ K).
  unfold readable in R. unfold read_image.
  destruct (files (path_join folder (filename image))) as [data|] eqn:Ef;
    [|discriminate].
  assert (He : entry files tags folder image =
               {| entry_name := filename image; contents := data;
                  regions := map (region tags) (image_tags image) |})
    by (unfold entry, file_content; rewrite Ef; reflexivity).
  rewrite He. cbn [bind emit ret app]. rewrite (IH Hl).
  cbn [bind ret app]. rewrite app_nil_r. reflexivity.
Qed.

Lemma make_batch_incomplete (images : list (tagged_image number)) :
  forallb complete images = false ->
  exists ex, fst (make_batch files tags folder images) = inl ex.
Proof.
  induction images as [|image images IH]; [discriminate|].
  cbn [forallb make_batch]. intros H.
  destruct (make_regions_spec number tags (image_tags image)) as (Htr & Hok & Hko).
  destruct (all_known tags image) eqn:K; unfold all_known in K.
  - destruct (Hok K) as (regions & Hr).
    destruct (make_regions tags (image_tags image)) as [r tr]. simpl in *. subst.
    unfold read_image, readable in *. simpl.
    destruct (files (path_join folder (filename image))); simpl;
      [|eexists; reflexivity].
    simpl in H. destruct (IH H) as (ex & Hex).
    destruct (make_batch files tags folder images) as [r tr]. simpl in *. subst.
    simpl. eexists; reflexivity.
  - specialize (Hko K).
    destruct (make_regions tags (image_tags image)) as [r tr]. simpl in *. subst.
    simpl. eexists; reflexivity.
Qed.

Lemma print_statuses_lines (statuses : list string) :
  print_statuses number statuses =
  (inr tt, map (fun status => print (print_args ["Image status: "; status])) statuses).
Proof.
  induction statuses as [|status l IH]; [reflexivity|].
  cbn [print_statuses]. rewrite IH. reflexivity.
Qed.

(** The run of [Upload_Images] once the batch is built: the request, then
    the report of its answer. *)
Lemma Upload_Images_sends (images : list (tagged_image number)) batch tr :
  make_batch files tags folder images = (inr batch, tr) ->
  Upload_Images project_id (inr tags) (inr images) files upload folder =
  (match upload batch with inl ex => inl ex | inr _ => inr tt end,
   print "Uploading images..." :: get_tags project_id :: open_ "tagged-images.json"
     :: tr ++ create_images_from_files project_id batch
     :: match upload batch with
        | inl _ => []
        | inr summary => map print (report_lines summary)
        end).
Proof.
  intros E. unfold Upload_Images. cbn [bind emit answer app]. rewrite E.
  cbn [bind emit answer app].
  destruct (upload batch) as [ex|summary]; [reflexivity|].
  unfold report_lines.
  destruct (is_batch_successful summary); cbn [negb bind emit app].
  - reflexivity.
  - rewrite print_statuses_lines. cbn [app map]. rewrite map_map. reflexivity.
Qed.

Lemma printed_opens (images : list (tagged_image number)) :
  printed (map (fun i => @open_ number (path_join folder (filename i))) images) = [].
Proof. induction images as [|i l IH]; [reflexivity|exact IH]. Qed.

Lemma batch_printed_app a b : @printed number (a ++ b) = printed a ++ printed b.
Proof.
  induction a as [|e a IH]; [reflexivity|]. destruct e; simpl; rewrite ?IH; reflexivity.
Qed.

Lemma printed_prints l : @printed number (map print l) = l.
Proof. induction l as [|x l IH]; [reflexivity|]. simpl. rewrite IH. reflexivity. Qed.

Lemma filter_opens (images : list (tagged_image number)) :
  filter is_upload (map (fun i => @open_ number (path_join folder (filename i))) images)
  = [].
Proof. induction images as [|i l IH]; [reflexivity|exact IH]. Qed.

Lemma filter_prints l : filter (@is_upload number) (map print l) = [].
Proof. induction l as [|x l IH]; [reflexivity|exact IH]. Qed.

(** X16: when every tag name is known and every file readable, one request is
    sent and it carries the whole file: one entry per image, in the order
    of the file, named after the image, holding the bytes of its file and
    one region per tagged region, with the id of the first project tag of
    that name and the four coordinates as they stand in the file. An empty
    file list sends an empty batch. *)
Theorem batch_mirrors_the_file (images : list (tagged_image number)) :
  forallb complete images = true ->
  filter is_upload
    (snd (Upload_Images project_id (inr tags) (inr images) files upload folder)) =
  [create_images_from_files project_id (map (entry files tags folder) images)].
Proof.
  intros H. rewrite (Upload_Images_sends images _ _ (make_batch_ok images H)).
  cbn [snd filter is_upload]. rewrite filter_app, filter_opens.
  cbn [app filter is_upload].
  destruct (upload (map (entry files tags folder) images)); [reflexivity|].
  rewrite filter_prints. reflexivity.
Qed.

(** X17: a batch the service rejects is reported, not raised: [Upload_Images]
    prints "Image batch upload failed." and one status line per image of
    the answer, and returns normally, as it does after "Images uploaded."
    for an accepted batch. Only a request that raises ends it with an
    exception, and then nothing is printed after the heading. *)
Theorem rejected_batch_is_reported (images : list (tagged_image number)) :
  forallb complete images = true ->
  let r := Upload_Images project_id (inr tags) (inr images) files upload folder in
  match upload (map (entry files tags folder) images) with
  | inr summary =>
      fst r = inr tt /\ printed (snd r) = "Uploading images..." :: report_lines summary
  | inl ex => fst r = inl ex /\ printed (snd r) = ["Uploading images..."]
  end.
Proof.
  intros H r. subst r.
  rewrite (Upload_Images_sends images _ _ (make_batch_ok images H)).
  cbn [fst snd printed]. rewrite batch_printed_app, printed_opens.
  cbn [app printed].
  destruct (upload (map (entry files tags folder) images)) as [ex|summary].
  - split; reflexivity.
  - rewrite printed_prints. split; reflexivity.
Qed.

(** X18: no partial batch ever leaves: in every run with the tags and the file
    at hand, an upload request is in the trace only when every image of
    the file has known tag names and a readable file, and then it is this
    project's and carries every image of the file; there is never more
    than one. *)
Theorem upload_is_all_or_nothing (images : list (tagged_image number)) :
  let tr := snd (Upload_Images project_id (inr tags) (inr images) files upload folder) in
  length (filter is_upload tr) <= 1 /\
  (forall p batch,
     In (create_images_from_files p batch) tr ->
     p = project_id /\
     batch = map (entry files tags folder) images /\
     forallb complete images = true).
Proof.
  intros tr. subst tr.
  destruct (forallb complete images) eqn:Hc.
  - pose proof (batch_shape := Upload_Images_sends images _ _ (make_batch_ok images Hc)).
    rewrite batch_shape. cbn [snd]. split.
    + cbn [filter is_upload]. rewrite filter_app, filter_opens.
      cbn [app filter is_upload length].
      destruct (upload (map (entry files tags folder) images));
        [simpl; lia|]. rewrite filter_prints. simpl. lia.
    + intros p batch Hin.
      destruct Hin as [Hin|[Hin|[Hin|Hin]]]; try discriminate.
      apply in_app_or in Hin. destruct Hin as [Hin|Hin].
      * apply in_map_iff in Hin. destruct Hin as (i & Hi & _). discriminate.
      * destruct Hin as [Hin|Hin].
        -- injection Hin as <- <-. repeat split.
        -- destruct (upload (map (entry files tags folder) images)); [destruct Hin|].
           apply in_map_iff in Hin. destruct Hin as (l & Hl & _). discriminate.
  - destruct (make_batch_incomplete images Hc) as (ex & Hex).
    pose proof (make_batch_trace number files tags folder images) as Htr.
    destruct (make_batch files tags folder images) as [res tr] eqn:E.
    simpl in Hex. subst res.
    rewrite (Upload_Images_fails number project_id files upload tags folder images ex tr E).
    cbn [snd]. split.
    + cbn [filter is_upload]. rewrite (no_upload_filter number tr Htr). simpl. lia.
    + intros p batch Hin.
      destruct Hin as [Hin|[Hin|[Hin|Hin]]]; try discriminate.
      rewrite Forall_forall in Htr. specialize (Htr _ Hin). discriminate.
Qed.

(** X19: an image whose file is missing ends the run with the
    [FileNotFoundError] of that path, after the files of the images before
    it have been read, and before any upload. *)
Theorem missing_file_stops_before_upload pre bad post :
  forallb complete pre = true ->
  all_known tags bad = true ->
  files (path_join folder (filename bad)) = None ->
  Upload_Images project_id (inr tags) (inr (pre ++ bad :: post)) files upload folder =
  (inl (FileNotFoundError (path_join folder (filename bad))),
   print "Uploading images..." :: get_tags project_id :: open_ "tagged-images.json"
     :: map (fun i => open_ (path_join folder (filename i))) (pre ++ [bad])).
Proof.
  intros Hpre Hk Hmiss.
  apply Upload_Images_fails.
  induction pre as [|image pre IH].
  - cbn [app make_batch map]. unfold all_known in Hk.
    rewrite (make_regions_ok _ Hk). unfold read_image. rewrite Hmiss. reflexivity.
  - cbn [forallb] in Hpre. apply andb_prop in Hpre. destruct Hpre as [Hc Hl].
    apply andb_prop in Hc. destruct Hc as [K R].
    cbn [app make_batch map]. unfold all_known in K.
    rewrite (make_regions_ok _ K). unfold read_image, readable in *.
    destruct (files (path_join folder (filename image))); [|discriminate].
    simpl. rewrite (IH Hl). reflexivity.
Qed.

End Batch.

(** With twin tags, the first one gives the id. *)
Example twin_tags_first :
  make_regions twin_tags [demo_region "apple"] =
  (inr [ {| tag_id := "id-1"; left := 1%Z; top := 2%Z; width := 3%Z; height := 4%Z |} ],
   []).
Proof. reflexivity. Qed.

Lemma batch_mirrors_the_file_witness :
  forallb (fun image => all_known demo_tags image && readable demo_files "images" image)
    demo_known = true /\
  filter is_upload
    (snd (Upload_Images "proj" (inr demo_tags) (inr demo_known) demo_files
            demo_rejecting "images")) =
  [create_images_from_files "proj" (map (entry demo_files demo_tags "images") demo_known)].
Proof.
  split; [reflexivity|].
  exact (batch_mirrors_the_file Z "proj" demo_files demo_rejecting demo_tags "images"
           demo_known eq_refl).
Defined.

Lemma rejected_batch_is_reported_witness :
  forallb (fun image => all_known demo_tags image && readable demo_files "images" image)
    demo_known = true /\
  fst (Upload_Images "proj" (inr demo_tags) (inr demo_known) demo_files
         demo_rejecting "images") = inr tt /\
  printed (snd (Upload_Images "proj" (inr demo_tags) (inr demo_known) demo_files
                  demo_rejecting "images")) =
  ["Uploading images..."; "Image batch upload failed.";
   "Image status:  ErrorSource"; "Image status:  ErrorSource"].
Proof.
  split; [reflexivity|].
  exact (rejected_batch_is_reported Z "proj" demo_files demo_rejecting demo_tags "images"
           demo_known eq_refl).
Defined.

Lemma missing_file_stops_before_upload_witness :
  (forallb (fun image => all_known demo_tags image && readable demo_missing "images" image)
     (firstn 1 demo_known) = true /\
   all_known demo_tags (nth 1 demo_known (nth 0 demo_known
                          {| filename := ""; image_tags := [] |})) = true /\
   demo_missing "images/image3.jpg" = None) /\
  Upload_Images "proj" (inr demo_tags) (inr demo_known) demo_missing demo_upload "images" =
  (inl (FileNotFoundError "images/image3.jpg"),
   [print "Uploading images..."; get_tags "proj"; open_ "tagged-images.json";
    open_ "images/image1.jpg"; open_ "images/image3.jpg"]).
Proof.
  split; [repeat split|].
  exact (missing_file_stops_before_upload Z "proj" demo_missing demo_upload demo_tags
           "images" (firstn 1 demo_known)
           (nth 1 demo_known (nth 0 demo_known {| filename := ""; image_tags := [] |}))
           [] eq_refl eq_refl eq_refl).
Defined.

End AddTaggedImagesBatchSpec.
